(** * Content analysis of a crawled page: the scoring pipeline

    A shallow embedding of [analyzer/content_analysis.py]
    ([ContentAnalysisAgent.analyze] and the [AnalysisResult] record), with
    the pieces of the Python runtime it calls ([str] methods, [json.loads],
    comparison of a JSON value with an integer, [print], the classes of
    exceptions) and the properties of the pipeline: score range, status
    thresholds, error absorption and what escapes it, the html-absent
    sentinel, the broken-link summary, the prompt. *)

From Stdlib Require Import List ZArith NArith Lia Bool Ascii String.
From Stdlib Require Import DecimalString.
Import ListNotations.

Local Open Scope Z_scope.
Set Warnings "-register-all".

(** ** Python strings

    A Python [str] is a sequence of Unicode code points; slicing and
    [len] count code points, not bytes. *)

Module Py.

Definition char := N.
Definition str := list char.

(** Literals are written in UTF-8 and decoded to code points. *)
Fixpoint utf8_decode (bs : list N) : str :=
  match bs with
  | [] => []
  | b :: r =>
    if (b <? 128)%N then b :: utf8_decode r
    else if (b <? 224)%N then
      match r with
      | b1 :: r1 => ((b - 192) * 64 + (b1 - 128))%N :: utf8_decode r1
      | _ => []
      end
    else if (b <? 240)%N then
      match r with
      | b1 :: b2 :: r2 =>
        ((b - 224) * 4096 + (b1 - 128) * 64 + (b2 - 128))%N :: utf8_decode r2
      | _ => []
      end
    else
      match r with
      | b1 :: b2 :: b3 :: r3 =>
        ((b - 240) * 262144 + (b1 - 128) * 4096 + (b2 - 128) * 64
         + (b3 - 128))%N :: utf8_decode r3
      | _ => []
      end
  end.

Definition u (s : string) : str :=
  utf8_decode (map N_of_ascii (list_ascii_of_string s)).

Definition str_eqb (a b : str) : bool :=
  if list_eq_dec N.eq_dec a b then true else false.

(** [a.startswith(p)] *)
Fixpoint startswith (p s : str) : bool :=
  match p, s with
  | [], _ => true
  | c :: p', d :: s' => (c =? d)%N && startswith p' s'
  | _ :: _, [] => false
  end.

(** [sep.join(parts)] *)
Fixpoint join (sep : str) (parts : list str) : str :=
  match parts with
  | [] => []
  | [p] => p
  | p :: ps => p ++ sep ++ join sep ps
  end.

(** [str.isspace] of one code point (the Unicode whitespace of CPython). *)
Definition isspace (c : char) : bool :=
  ((9 <=? c) && (c <=? 13) || (28 <=? c) && (c <=? 32)
   || (c =? 133) || (c =? 160) || (c =? 5760)
   || (8192 <=? c) && (c <=? 8202)
   || (c =? 8232) || (c =? 8233) || (c =? 8239) || (c =? 8287)
   || (c =? 12288))%N.

Fixpoint lstrip (s : str) : str :=
  match s with
  | c :: s' => if isspace c then lstrip s' else s
  | [] => []
  end.

Definition rstrip (s : str) : str := rev (lstrip (rev s)).

(** [s.strip()] *)
Definition strip (s : str) : str := rstrip (lstrip s).

(** [s.replace(c, '')] for a one-character [c] *)
Definition remove_char (c : char) (s : str) : str :=
  filter (fun d => negb (d =? c)%N) s.

(** [str(n)] for an [int]: its decimal numeral. *)
Definition str_of_Z (n : Z) : str :=
  map N_of_ascii (list_ascii_of_string (NilZero.string_of_int (Z.to_int n))).

Definition str_of_nat (n : nat) : str := str_of_Z (Z.of_nat n).

(** [a or b] on strings that may be [None]: the first truthy one. *)
Definition or_else (a : option str) (b : str) : str :=
  match a with
  | Some (c :: s) => c :: s
  | _ => b
  end.

End Py.

(** ** Python values and exceptions *)

Module PyVal.
Import Py.

(** The values [json.loads] builds.  A [float] is kept as the numeral it
    was read from ([NaN], [Infinity] and [-Infinity] included): its
    IEEE-754 value is a function of the numeral. *)
Inductive value :=
| VNone
| VBool (b : bool)
| VInt (n : Z)
| VFloat (numeral : str)
| VStr (s : str)
| VList (l : list value)
| VDict (items : list (str * value)).

(** The exceptions that can reach the [except] clause or escape
    [analyze].  The first seven are instances of [Exception]
    ([OtherException] stands for every other subclass of it); the last
    three are not: [KeyboardInterrupt], [SystemExit], and every other
    class that derives from [BaseException] only. *)
Inductive exn :=
| JSONDecodeError (msg : str) (doc : str) (pos : nat)
| ValueError (msg : str)
| RecursionError (msg : str)
| AttributeError (msg : str)
| TypeError (msg : str)
| UnicodeEncodeError (msg : str)
| OtherException (msg : str)
| KeyboardInterrupt (msg : str)
| SystemExit (msg : str)
| OtherBaseException (msg : str).

(** [isinstance(e, Exception)] *)
Definition is_exception (e : exn) : bool :=
  match e with
  | KeyboardInterrupt _ | SystemExit _ | OtherBaseException _ => false
  | _ => true
  end.

Inductive result (A : Type) :=
| Return (a : A)
| Raise (e : exn).
Arguments Return {A} a.
Arguments Raise {A} e.

(** [type(v).__name__] *)
Definition type_name (v : value) : str :=
  match v with
  | VNone => u "NoneType"
  | VBool _ => u "bool"
  | VInt _ => u "int"
  | VFloat _ => u "float"
  | VStr _ => u "str"
  | VList _ => u "list"
  | VDict _ => u "dict"
  end.

(** [doc.count('\n', 0, pos) + 1] and [pos - doc.rindex('\n', 0, pos)]
    (or [pos + 1] when there is no newline), as [JSONDecodeError.__init__]
    computes them. *)
Fixpoint line_col (doc : str) (pos : nat) (line col : nat) : nat * nat :=
  match pos, doc with
  | S p, c :: doc' =>
    if (c =? 10)%N then line_col doc' p (S line) 1%nat
    else line_col doc' p line (S col)
  | _, _ => (line, col)
  end.

(** [str(e)] *)
Definition exn_str (e : exn) : str :=
  match e with
  | JSONDecodeError msg doc pos =>
    let '(l, c) := line_col doc pos 1%nat 1%nat in
    msg ++ u ": line " ++ str_of_nat l ++ u " column " ++ str_of_nat c
        ++ u " (char " ++ str_of_nat pos ++ u ")"
  | ValueError msg | RecursionError msg | AttributeError msg
  | TypeError msg | UnicodeEncodeError msg | OtherException msg
  | KeyboardInterrupt msg | SystemExit msg | OtherBaseException msg => msg
  end.

(** A [dict] keeps its keys in insertion order; assigning to a key already
    present replaces its value in place. *)
Fixpoint dict_setitem (d : list (str * value)) (k : str) (v : value)
  : list (str * value) :=
  match d with
  | [] => [(k, v)]
  | (k', v') :: d' =>
    if str_eqb k' k then (k', v) :: d' else (k', v') :: dict_setitem d' k v
  end.

Fixpoint dict_lookup (d : list (str * value)) (k : str) : option value :=
  match d with
  | [] => None
  | (k', v') :: d' => if str_eqb k' k then Some v' else dict_lookup d' k
  end.

(** [data.get(key, default)]: defined on a [dict] only. *)
Definition get (data : value) (key : str) (default : value) : result value :=
  match data with
  | VDict d =>
    Return (match dict_lookup d key with Some v => v | None => default end)
  | _ =>
    Raise (AttributeError
             ([39%N] ++ type_name data ++ u "' object has no attribute 'get'"))
  end.

End PyVal.

(** ** [json.loads]

    The decoder of CPython's [json] package with its default settings
    (strict strings, no hooks), as its scanner reads a [str]: a value is
    scanned from a position of the document, and what remains of the
    document after it is returned with it.  A position is kept as the
    number of characters that remain from it. *)

Module Json.
Import Py PyVal.

(** How a scan fails: [StopIteration] at a position (no value starts
    there), a decoding error with its message and position, or another
    exception.  [Exhausted] marks the end of a loop bound that is never
    reached (see [loads_not_exhausted]). *)
Inductive scan (A : Type) :=
| Scanned (a : A) (rest : str)
| StopIteration (remaining : nat)
| DecodeError (msg : str) (remaining : nat)
| Failed (e : exn)
| Exhausted.
Arguments Scanned {A} a rest.
Arguments StopIteration {A} remaining.
Arguments DecodeError {A} msg remaining.
Arguments Failed {A} e.
Arguments Exhausted {A}.

(** [IS_WHITESPACE]: space, tab, line feed, carriage return. *)
Definition is_ws (c : char) : bool :=
  ((c =? 32) || (c =? 9) || (c =? 10) || (c =? 13))%N.

Fixpoint skip_ws (s : str) : str :=
  match s with
  | c :: s' => if is_ws c then skip_ws s' else s
  | [] => []
  end.

Definition is_digit (c : char) : bool := ((48 <=? c) && (c <=? 57))%N.

Definition hex_digit (c : char) : option N :=
  if ((48 <=? c) && (c <=? 57))%N then Some (c - 48)%N
  else if ((65 <=? c) && (c <=? 70))%N then Some (c - 55)%N
  else if ((97 <=? c) && (c <=? 102))%N then Some (c - 87)%N
  else None.

Definition hex4 (a b c d : char) : option N :=
  match hex_digit a, hex_digit b, hex_digit c, hex_digit d with
  | Some x, Some y, Some z, Some w =>
    Some (((x * 16 + y) * 16 + z) * 16 + w)%N
  | _, _, _, _ => None
  end.

Definition is_high_surrogate (c : N) : bool :=
  ((55296 <=? c) && (c <=? 56319))%N.
Definition is_low_surrogate (c : N) : bool :=
  ((56320 <=? c) && (c <=? 57343))%N.
Definition join_surrogates (hi lo : N) : N :=
  (65536 + ((hi - 55296) * 1024 + (lo - 56320)))%N.

(** The one-character escapes. *)
Definition simple_escape (c : char) : option char :=
  if (c =? 34)%N then Some 34%N           (* quotation mark *)
  else if (c =? 92)%N then Some 92%N      (* backslash *)
  else if (c =? 47)%N then Some 47%N      (* slash *)
  else if (c =? 98)%N then Some 8%N       (* b *)
  else if (c =? 102)%N then Some 12%N     (* f *)
  else if (c =? 110)%N then Some 10%N     (* n *)
  else if (c =? 114)%N then Some 13%N     (* r *)
  else if (c =? 116)%N then Some 9%N      (* t *)
  else None.

Definition msg_unterminated := u "Unterminated string starting at".
Definition msg_control := u "Invalid control character at".
Definition msg_escape := [73; 110; 118; 97; 108; 105; 100; 32; 92]%N ++ u "escape".
Definition msg_uescape :=
  [73; 110; 118; 97; 108; 105; 100; 32; 92]%N ++ u "uXXXX escape".

Definition cons_char (c : char) (r : scan str) : scan str :=
  match r with
  | Scanned t rest => Scanned (c :: t) rest
  | other => other
  end.

(** [scanstring]: [s] starts after the opening quotation mark, which is at
    position [begin].  A [\uXXXX] escape must be followed by one more
    character at least; a high surrogate joins a low surrogate escape that
    follows it (that one too followed by a character at least). *)
Fixpoint scanstring (begin : nat) (s : str) : scan str :=
  match s with
  | [] => DecodeError msg_unterminated begin
  | c :: r =>
    if (c =? 34)%N then Scanned [] r
    else if (c =? 92)%N then
      match r with
      | [] => DecodeError msg_unterminated begin
      | e :: r1 =>
        if (e =? 117)%N then
          match r1 with
          | h1 :: h2 :: h3 :: h4 :: ((_ :: _) as r2) =>
            match hex4 h1 h2 h3 h4 with
            | None => DecodeError msg_uescape (List.length r)
            | Some c1 =>
              match r2 with
              | b :: ((v :: g1 :: g2 :: g3 :: g4 :: ((_ :: _) as r3)) as rb) =>
                if (is_high_surrogate c1 && (b =? 92) && (v =? 117))%N then
                  match hex4 g1 g2 g3 g4 with
                  | None => DecodeError msg_uescape (List.length rb)
                  | Some c2 =>
                    if is_low_surrogate c2
                    then cons_char (join_surrogates c1 c2) (scanstring begin r3)
                    else cons_char c1 (scanstring begin r2)
                  end
                else cons_char c1 (scanstring begin r2)
              | _ => cons_char c1 (scanstring begin r2)
              end
            end
          | _ => DecodeError msg_uescape (List.length r)
          end
        else
          match simple_escape e with
          | Some c1 => cons_char c1 (scanstring begin r1)
          | None => DecodeError msg_escape (List.length s)
          end
      end
    else if (c <=? 31)%N then DecodeError msg_control (List.length s)
    else cons_char c (scanstring begin r)
  end.

(** Sequencing of scans. *)
Definition bind {A B : Type} (m : scan A) (f : A -> str -> scan B) : scan B :=
  match m with
  | Scanned a rest => f a rest
  | StopIteration n => StopIteration n
  | DecodeError msg n => DecodeError msg n
  | Failed e => Failed e
  | Exhausted => Exhausted
  end.

Notation "'let*' ( a , r ) := m 'in' k" :=
  (bind m (fun a r => k))
    (at level 10, a name, r name, m at level 100, k at level 200).

(** *** Numbers *)

Fixpoint span_digits (s : str) : str * str :=
  match s with
  | c :: r =>
    if is_digit c then let '(ds, t) := span_digits r in (c :: ds, t)
    else ([], s)
  | [] => ([], [])
  end.

Definition Z_of_digits (ds : str) : Z :=
  fold_left (fun acc c => acc * 10 + Z.of_N (c - 48)) ds 0.

(** [_match_number]: an optional minus sign, [0] or a numeral without a
    leading zero, then a fraction if a full stop and a digit follow, then
    an exponent if [e] or [E], an optional sign and a digit follow.  With a
    fraction or an exponent the number is a [float], otherwise an [int];
    [int(numeral)] is refused beyond [sys.get_int_max_str_digits()] digits
    (0 disables the limit; a numeral of 640 digits or fewer is never
    refused). *)
Definition scan_sign (s : str) : bool * str :=
  match s with
  | c :: r => if (c =? 45)%N then (true, r) else (false, s)
  | [] => (false, s)
  end.

Definition scan_integer (s1 : str) : option (str * str) :=
  match s1 with
  | [] => None
  | c :: r =>
    if ((49 <=? c) && (c <=? 57))%N then
      let '(ds, t) := span_digits r in Some (c :: ds, t)
    else if (c =? 48)%N then Some ([c], r)
    else None
  end.

Definition scan_fraction (s2 : str) : str * str :=
  match s2 with
  | p :: ((d :: _) as r2) =>
    if ((p =? 46)%N && is_digit d)
    then let '(ds, t) := span_digits r2 in (p :: ds, t)
    else ([], s2)
  | _ => ([], s2)
  end.

Definition scan_exponent (s3 : str) : str * str :=
  match s3 with
  | e :: r3 =>
    if ((e =? 101) || (e =? 69))%N then
      let '(sg, r4) :=
        match r3 with
        | g :: ((_ :: _) as r') =>
          if ((g =? 45) || (g =? 43))%N then ([g], r') else ([], r3)
        | _ => ([], r3)
        end in
      let '(ds, t) := span_digits r4 in
      match ds with
      | [] => ([], s3)
      | _ :: _ => (e :: sg ++ ds, t)
      end
    else ([], s3)
  | [] => ([], s3)
  end.

Definition match_number (max_digits : nat) (s : str) : scan value :=
  let start := List.length s in
  let '(neg, s1) := scan_sign s in
  match scan_integer s1 with
  | None => StopIteration start
  | Some (ip, s2) =>
    let '(frac, s3) := scan_fraction s2 in
    let '(ex, s4) := scan_exponent s3 in
    match frac ++ ex with
    | _ :: _ =>
      Scanned (VFloat ((if neg then [45%N] else []) ++ ip ++ frac ++ ex)) s4
    | [] =>
      let n := List.length ip in
      if ((640 <? n) && (0 <? max_digits) && (max_digits <? n))%nat then
        Failed (ValueError
          (u "Exceeds the limit (" ++ str_of_nat max_digits
             ++ u " digits) for integer string conversion: value has "
             ++ str_of_nat n
             ++ u " digits; use sys.set_int_max_str_digits() to increase the limit"))
      else
        Scanned (VInt (if neg then - Z_of_digits ip else Z_of_digits ip)) s4
    end
  end.

(** *** Arrays and objects

    [scan] is the scanner of the values inside; [k] bounds the number of
    items by the length of the text that holds them. *)

Definition msg_comma := u "Expecting ',' delimiter".
Definition msg_colon := u "Expecting ':' delimiter".
Definition msg_name := u "Expecting property name enclosed in double quotes".

Fixpoint elements (scan_once : str -> scan value) (k : nat) (s : str)
    (acc : list value) : scan value :=
  match k with
  | O => Exhausted
  | S k' =>
    let* (v, r) := scan_once s in
    match skip_ws r with
    | c :: r2 =>
      if (c =? 93)%N then Scanned (VList (acc ++ [v])) r2
      else if (c =? 44)%N then elements scan_once k' (skip_ws r2) (acc ++ [v])
      else DecodeError msg_comma (List.length (skip_ws r))
    | [] => DecodeError msg_comma 0
    end
  end.

Definition parse_array (scan_once : str -> scan value) (s : str) : scan value :=
  match skip_ws s with
  | c :: r =>
    if (c =? 93)%N then Scanned (VList []) r
    else elements scan_once (S (List.length s)) (skip_ws s) []
  | [] => elements scan_once (S (List.length s)) [] []
  end.

Fixpoint members (scan_once : str -> scan value) (k : nat) (s : str)
    (acc : list (str * value)) : scan value :=
  match k with
  | O => Exhausted
  | S k' =>
    match s with
    | q :: r =>
      if (q =? 34)%N then
        let* (key, r1) := scanstring (List.length s) r in
        match skip_ws r1 with
        | c :: r3 =>
          if (c =? 58)%N then
            let* (v, r5) := scan_once (skip_ws r3) in
            let acc' := dict_setitem acc key v in
            match skip_ws r5 with
            | c' :: r7 =>
              if (c' =? 125)%N then Scanned (VDict acc') r7
              else if (c' =? 44)%N then members scan_once k' (skip_ws r7) acc'
              else DecodeError msg_comma (List.length (skip_ws r5))
            | [] => DecodeError msg_comma 0
            end
          else DecodeError msg_colon (List.length (skip_ws r1))
        | [] => DecodeError msg_colon 0
        end
      else DecodeError msg_name (List.length s)
    | [] => DecodeError msg_name 0
    end
  end.

Definition parse_object (scan_once : str -> scan value) (s : str) : scan value :=
  match skip_ws s with
  | c :: r =>
    if (c =? 125)%N then Scanned (VDict []) r
    else members scan_once (S (List.length s)) (skip_ws s) []
  | [] => members scan_once (S (List.length s)) [] []
  end.

(** *** Values

    [depth] is the number of nested calls the interpreter still allows:
    entering an object or an array takes one, and [RecursionError] is
    raised when none is left. *)

Definition msg_recursion (what : str) : str :=
  u "maximum recursion depth exceeded while decoding a JSON " ++ what
    ++ u " from a unicode string".

Definition constant (name : str) (v : value) (max_digits : nat) (s : str)
  : scan value :=
  if startswith name s then Scanned v (skipn (List.length name) s)
  else match_number max_digits s.

Fixpoint scan_once (max_digits depth : nat) (s : str) : scan value :=
  match s with
  | [] => StopIteration 0
  | c :: r =>
    if (c =? 34)%N then
      let* (t, rest) := scanstring (List.length s) r in Scanned (VStr t) rest
    else if (c =? 123)%N then
      match depth with
      | O => Failed (RecursionError (msg_recursion (u "object")))
      | S depth' => parse_object (scan_once max_digits depth') r
      end
    else if (c =? 91)%N then
      match depth with
      | O => Failed (RecursionError (msg_recursion (u "array")))
      | S depth' => parse_array (scan_once max_digits depth') r
      end
    else if (c =? 110)%N then constant (u "null") VNone max_digits s
    else if (c =? 116)%N then constant (u "true") (VBool true) max_digits s
    else if (c =? 102)%N then constant (u "false") (VBool false) max_digits s
    else if (c =? 78)%N then constant (u "NaN") (VFloat (u "NaN")) max_digits s
    else if (c =? 73)%N
    then constant (u "Infinity") (VFloat (u "Infinity")) max_digits s
    else if (c =? 45)%N
    then constant (u "-Infinity") (VFloat (u "-Infinity")) max_digits s
    else match_number max_digits s
  end.

(** [json.loads(doc)]: a byte order mark is refused; one value is scanned
    after leading whitespace, and only whitespace may follow it. *)
Definition loads (max_digits depth : nat) (doc : str) : result value :=
  let at_pos (remaining : nat) := (List.length doc - remaining)%nat in
  if startswith [65279%N] doc then
    Raise (JSONDecodeError
             (u "Unexpected UTF-8 BOM (decode using utf-8-sig)") doc 0)
  else
    match scan_once max_digits depth (skip_ws doc) with
    | Scanned obj rest =>
      match skip_ws rest with
      | [] => Return obj
      | _ :: _ =>
        Raise (JSONDecodeError (u "Extra data") doc
                               (at_pos (List.length (skip_ws rest))))
      end
    | StopIteration n => Raise (JSONDecodeError (u "Expecting value") doc (at_pos n))
    | DecodeError msg n => Raise (JSONDecodeError msg doc (at_pos n))
    | Failed e => Raise e
    | Exhausted => Raise (RecursionError (u "unreachable"))
    end.

(** A scan that is not [Exhausted] and, when it succeeds, leaves less than
    [n] characters. *)
Definition consumes {A} (n : nat) (r : scan A) : Prop :=
  match r with
  | Scanned _ rest => (List.length rest < n)%nat
  | Exhausted => False
  | _ => True
  end.

(** A scanner of values that consumes what it scans. *)
Definition consuming (f : str -> scan value) : Prop :=
  forall s, consumes (List.length s) (f s).

End Json.

(** ** Comparing a [float] with an [int]

    [float(numeral)] is the IEEE-754 double nearest to the decimal numeral
    (ties to the even mantissa, infinite from [2^1024 - 2^970] on); Python
    compares it with an [int] by value. *)

Module PyFloat.
Import Py PyVal Json.

(** A numeral of [_match_number]: its sign, the integer its digits write,
    and the power of ten that scales it. *)
Definition parse_numeral (x : str) : option (bool * Z * Z) :=
  let '(neg, s1) := scan_sign x in
  match scan_integer s1 with
  | None => None
  | Some (ip, s2) =>
    let '(frac, s3) := scan_fraction s2 in
    let '(ex, _) := scan_exponent s3 in
    let fd := tl frac in
    let e10 :=
      match ex with
      | _ :: g :: ds =>
        if (g =? 45)%N then - Z_of_digits ds
        else if (g =? 43)%N then Z_of_digits ds
        else Z_of_digits (g :: ds)
      | _ => 0
      end in
    Some (neg, Z_of_digits (ip ++ fd), e10 - Z.of_nat (List.length fd))
  end.

(** A positive rational [a / b] rounded to a double: [Some (m, s)] for
    [m * 2^s], [None] for infinity. *)
Definition round_double (a b : Z) : option (Z * Z) :=
  let ge_pow2 (k : Z) := if 0 <=? k then b * 2 ^ k <=? a else b <=? a * 2 ^ (- k) in
  let k0 := Z.log2 a - Z.log2 b in
  let e := if ge_pow2 k0 then k0 else k0 - 1 in
  let s := Z.max e (-1022) - 52 in
  let num := if 0 <=? s then a else a * 2 ^ (- s) in
  let den := if 0 <=? s then b * 2 ^ s else b in
  let m := num / den in
  let r := num mod den in
  let m' := if (den <? 2 * r) || ((den =? 2 * r) && Z.odd m) then m + 1 else m in
  if (0 <=? s) && (2 ^ 1024 <=? m' * 2 ^ s) then None else Some (m', s).

(** [float(x) < n] *)
Definition lt_int (x : str) (n : Z) : bool :=
  if str_eqb x (u "NaN") then false
  else if str_eqb x (u "Infinity") then false
  else if str_eqb x (u "-Infinity") then true
  else
    match parse_numeral x with
    | None => false
    | Some (neg, d, e10) =>
      if d =? 0 then 0 <? n
      else
        let a := if 0 <=? e10 then d * 10 ^ e10 else d in
        let b := if 0 <=? e10 then 1 else 10 ^ (- e10) in
        match round_double a b with
        | None => neg
        | Some (m, s) =>
          let m := if neg then - m else m in
          if 0 <=? s then m * 2 ^ s <? n else m <? n * 2 ^ (- s)
        end
    end.

End PyFloat.

(** ** Standard output

    [sys.stdout] with the encoding UTF-8 and the error handler [strict],
    the default of an interpreter in a UTF-8 locale: a line that holds a
    surrogate code point cannot be encoded, and writing it raises
    [UnicodeEncodeError] for the first run of surrogates. *)

Module Stdout.
Import Py PyVal.

Definition is_surrogate (c : char) : bool :=
  ((55296 <=? c) && (c <=? 57343))%N.

Fixpoint surrogate_run (s : str) : nat :=
  match s with
  | c :: r => if is_surrogate c then S (surrogate_run r) else O
  | [] => O
  end.

(** The position of the first surrogate, the surrogate, and the length of
    the run it starts. *)
Fixpoint first_surrogate (s : str) (pos : nat) : option (nat * char * nat) :=
  match s with
  | [] => None
  | c :: r =>
    if is_surrogate c then Some (pos, c, S (surrogate_run r))
    else first_surrogate r (S pos)
  end.

Definition hex_char (d : N) : char :=
  if (d <? 10)%N then (48 + d)%N else (87 + d)%N.

(** Four lower-case hexadecimal digits. *)
Definition hex4_of (c : N) : str :=
  [hex_char (c / 4096); hex_char ((c / 256) mod 16);
   hex_char ((c / 16) mod 16); hex_char (c mod 16)]%N.

(** What writing [line] raises, if anything. *)
Definition utf8_strict (line : str) : option exn :=
  match first_surrogate line 0 with
  | None => None
  | Some (pos, c, 1%nat) =>
    Some (UnicodeEncodeError
            (u "'utf-8' codec can't encode character '\u" ++ hex4_of c
               ++ u "' in position " ++ str_of_nat pos
               ++ u ": surrogates not allowed"))
  | Some (pos, _, len) =>
    Some (UnicodeEncodeError
            (u "'utf-8' codec can't encode characters in position "
               ++ str_of_nat pos ++ u "-" ++ str_of_nat (pos + len - 1)
               ++ u ": surrogates not allowed"))
  end.

End Stdout.

(** ** The crawler's result

    Modelled from the spec: [CrawlResult] is declared in
    [crawler/web_crawler.py], which is not part of the analysed sources.
    The analyzer reads four attributes of it: the page's [url], its [html]
    ([None] when the page could not be fetched), the [last_updated] date
    string (possibly [None] or empty) and [link_status], a [dict] from link
    URL to HTTP status code, iterated in insertion order. *)

Module Crawler.
Import Py.

Record CrawlResult := {
  url : str;
  html : option str;
  last_updated : option str;
  link_status : list (str * Z)
}.

End Crawler.

(** ** [analyzer/content_analysis.py] *)

Module Analyzer.
Import Py PyVal.

(** *** What [analyze] gets from the interpreter and from the service

    [now_ymd] is [datetime.now().strftime("%Y-%m-%d")];
    [generate_content prompt] is the text of the service's reply
    ([self.model.generate_content(prompt)] followed by [response.text]) or
    the exception either of them raises; [float_lt x n] compares the
    [float] read from the numeral [x] with the integer [n];
    [int_max_str_digits] and [recursion_depth] are the interpreter's limit
    on [int] numerals and the nesting it still allows; [print_raises line]
    is the exception that writing [line] to [sys.stdout] raises, if any
    ([UnicodeEncodeError] when the stream cannot encode it). *)
Record Runtime := {
  now_ymd : str;
  generate_content : str -> result str;
  float_lt : str -> Z -> bool;
  int_max_str_digits : nat;
  recursion_depth : nat;
  print_raises : str -> option exn
}.

(** What an evaluation leaves behind: the prompts sent to the service and
    the lines printed. *)
Record World := {
  requests : list str;
  stdout : list str
}.

(** Computations that read and extend the [World] and may raise. *)
Definition M (A : Type) := World -> result A * World.

Definition ret {A} (a : A) : M A := fun w => (Return a, w).
Definition raise {A} (e : exn) : M A := fun w => (Raise e, w).
Definition lift {A} (r : result A) : M A := fun w => (r, w).

Definition bind {A B} (m : M A) (f : A -> M B) : M B :=
  fun w =>
    match m w with
    | (Return a, w') => f a w'
    | (Raise e, w') => (Raise e, w')
    end.

(** [try: body except (..., Exception) as e: handler]: the clause takes
    the instances of [Exception]; any other exception goes on. *)
Definition try_except {A} (body : M A) (handler : exn -> M A) : M A :=
  fun w =>
    match body w with
    | (Return a, w') => (Return a, w')
    | (Raise e, w') => if is_exception e then handler e w' else (Raise e, w')
    end.

Notation "x <- m ;; k" := (bind m (fun x => k))
  (at level 61, m at next level, right associativity).
Notation "' pat <- m ;; k" :=
  (bind m (fun x => match x with pat => k end))
  (at level 61, pat pattern, m at next level, right associativity).
Notation "m ;;; k" := (bind m (fun _ => k))
  (at level 61, right associativity).

Definition call_model (rt : Runtime) (prompt : str) : M str :=
  fun w =>
    (generate_content rt prompt,
     {| requests := requests w ++ [prompt]; stdout := stdout w |}).

(** [print(line)]: the line is written, or the write raises and nothing
    is written. *)
Definition print (rt : Runtime) (line : str) : M unit :=
  fun w =>
    match print_raises rt line with
    | Some e => (Raise e, w)
    | None =>
      (Return tt, {| requests := requests w; stdout := stdout w ++ [line] |})
    end.

(** *** [ContentAnalysisAgent.__init__]

    [getenv] is [os.getenv]; [GenAI] is what [genai.configure] sets in the
    client library; the agent holds the model it asked for. *)

Record GenAI := {
  configured_key : option str
}.

Record Agent := {
  model_name : str
}.

Definition init (getenv : str -> option str) : GenAI -> result Agent * GenAI :=
  fun lib =>
    match getenv (u "GEMINI_API_KEY") with
    | None | Some [] =>
      (Raise (ValueError
                (u "GEMINI_API_KEY not found in environment variables.")),
       lib)
    | Some ((_ :: _) as api_key) =>
      (Return {| model_name := u "gemini-2.5-flash-lite-preview-06-17" |},
       {| configured_key := Some api_key |})
    end.

(** *** The result record *)

Record AnalysisResult := {
  url : str;
  status : str;
  last_updated : option str;
  score : value;
  notes : value;
  broken_links : str
}.

(** *** Literals *)

Definition nl : str := [10%N].
Definition lines (ls : list str) : str := join nl ls.
(** Pieces separated by a quotation mark. *)
Definition q (pieces : list str) : str := join [34%N] pieces.

Definition status_error : str := u "❌ 錯誤".
Definition status_normal : str := u "✅ 正常".
Definition status_suspect : str := u "⚠️ 疑似".
Definition status_outdated : str := u "❌ 過時".

Definition notes_unfetched : str := u "無法抓取網頁內容".
Definition notes_no_reply : str := u "無法從 API 取得有效回覆".
Definition notes_failure_prefix : str := u "API 回應解析失敗: ".
Definition date_not_found : str := u "未找到".
Definition links_none : str := u "無".

(** The literal parts of the prompt, between its interpolated fields. *)
Definition prompt_intro : str :=
  lines
    [ [];
      u "        請根據以下HTML內容和抓取到的資訊，評估一個政府網站是否過時。";
      u "        你的角色是一位網站健檢專家。";
      [];
      u "        **參考資訊:**";
      u "        - **今天日期**: " ].

Definition prompt_before_url : str :=
  lines
    [ [];
      u "        - 網站 URL: " ].

Definition prompt_before_date : str :=
  lines
    [ [];
      u "        - 最後更新日期: " ].

Definition prompt_before_links : str :=
  lines
    [ [];
      u "        - **失效連結**: " ].

Definition prompt_rubric : str :=
  lines
    [ [];
      [];
      u "**3. 評分指南 (請嚴格遵循，總分100分):**";
      u "        您必須針對以下三個主要項目，各自給予規定的分數。分數越高，代表該項目越過時或問題越嚴重。";
      u "        此外，您需要根據失效連結的數量給予一個額外的加分項。";
      [];
      u "        **A. 過時元件 (Outdated Component) - (0-40分):**";
      u "        - **基準**: jQuery < 3.0, React < 16.8, Vue < 2.6 皆視為過時。";
      u "        - **0分**: 未偵測到函式庫，或使用的函式庫皆為現代版本。";
      u "        - **1-20分**: 使用了一個過時的函式庫。";
      u "        - **21-40分**: 使用了多個過時的函式庫，或版本極為古老 (例如 jQuery 1.x)。";
      [];
      u "        **B. 過時內容 (Outdated Content) - (0-40分):**";
      u "        - **0分**: 內容非常新穎，提及近期的活動或資訊。";
      u "        - **1-20分**: 內容看起來不常更新 (例如都是通用性說明)，但沒有明確的過期指標。";
      u "        - **21-40分**: 內容有非常明確的過期資訊 (例如: 提及數年前的活動、新聞、法規，且無更新跡象)。";
      [];
      u "        **C. 過久未更新 (Last Update) - (0-20分):**";
      u "        - **0分**: 「最後更新日期」在一年內。";
      u "        - **1-10分**: 「最後更新日期」距今 1-2 年。";
      u "        - **11-20分**: 「最後更新日期」距今超過 2 年。";
      u "        - **注意**: 如果沒有找到「最後更新日期」，可能為爬蟲程式判別不到，請斟酌給分。";
      [];
      u "        **D. 額外加分 - 失效連結 (Broken Link Penalty) - (0-5分):**";
      u "        - **0分**: 沒有失效連結。";
      u "        - **1-2分**: 存在 1-4 個失效連結。";
      u "        - **3-5分**: 存在 5 個或更多失效連結。";
      u "        - **注意**: 403可能是跳轉驗證，所以可以忽略。";
      [];
      u "        **4. 你的任務:**";
      u "        請根據以上所有資訊，綜合判斷並完全按照下面的 JSON 格式回傳你的分析結果，不得有其他種回復格式，不然系統會出錯。";
      u "        在 `notes` 中，請簡潔地總結你的主要發現，並點出判斷的關鍵依據 (例如：「偵測到使用過時的 jQuery 1.12.4，且最後更新日為三年前，並發現3個失效連結。」)。";
      [];
      u "        **HTML 內容 (前 2000 字元):**";
      u "        ```html";
      u "        " ].

Definition prompt_format : str :=
  lines
    [ [];
      u "        ```";
      [];
      u "        **輸出要求:**";
      u "        請嚴格按照以下 JSON 格式回傳，不要有任何額外的文字或說明：";
      u "        {";
      q [u "          "; u "score"; u ": <一個 0-100 的整數，分數越高代表越過時>,"];
      q [u "          "; u "notes"; u ": "; u "<一段簡短的中文說明，總結你的發現，如果發現失效連結，請在說明中提及(完整連結url)>"; []];
      u "        }";
      u "        " ].

(** *** [ContentAnalysisAgent.analyze] *)

(** [f"{link} (狀態: {code})"] *)
Definition render_link (link : str) (code : Z) : str :=
  link ++ u " (狀態: " ++ str_of_Z code ++ u ")".

Definition broken_links_list (link_status : list (str * Z)) : list str :=
  map (fun '(link, code) => render_link link code)
      (filter (fun '(_, code) => negb (code =? 200)) link_status).

Definition broken_links_str (cr : Crawler.CrawlResult) : str :=
  join nl (broken_links_list (Crawler.link_status cr)).

(** The f-string assigned to [prompt]. *)
Definition build_prompt (today_str : str) (cr : Crawler.CrawlResult)
    (page : str) : str :=
  prompt_intro ++ today_str
  ++ prompt_before_url ++ Crawler.url cr
  ++ prompt_before_date ++ or_else (Crawler.last_updated cr) date_not_found
  ++ prompt_before_links ++ or_else (Some (broken_links_str cr)) links_none
  ++ prompt_rubric ++ firstn 2000 page
  ++ prompt_format.

(** [response.text.strip().replace('`', '')], then without a leading
    ["json"]. *)
Definition clean_response (text : str) : str :=
  let cleaned_response := remove_char 96%N (strip text) in
  if startswith (u "json") cleaned_response
  then skipn 4 cleaned_response
  else cleaned_response.

(** [v < n] for an [int] [n]. *)
Definition lt_int (rt : Runtime) (v : value) (n : Z) : result bool :=
  match v with
  | VInt z => Return (z <? n)
  | VBool b => Return ((if b then 1 else 0) <? n)
  | VFloat x => Return (float_lt rt x n)
  | _ =>
    Raise (TypeError (u "'<' not supported between instances of '"
                        ++ type_name v ++ u "' and 'int'"))
  end.

(** The body of the [try] block: the resolved [score] and [notes]. *)
Definition resolve (rt : Runtime) (prompt : str) : M (value * value) :=
  text <- call_model rt prompt ;;
  let cleaned_response := clean_response text in
  data <- lift (Json.loads (int_max_str_digits rt) (recursion_depth rt)
                           cleaned_response) ;;
  score <- lift (get data (u "score") (VInt 100)) ;;
  notes <- lift (get data (u "notes") (VStr notes_no_reply)) ;;
  ret (score, notes).

(** [f"Error processing API response for {crawl_result.url}: {e}"] *)
Definition failure_line (cr : Crawler.CrawlResult) (e : exn) : str :=
  u "Error processing API response for " ++ Crawler.url cr ++ u ": "
    ++ exn_str e.

(** The [except] clause. *)
Definition on_error (rt : Runtime) (cr : Crawler.CrawlResult) (e : exn)
  : M (value * value) :=
  print rt (failure_line cr e) ;;;
  ret (VInt 100, VStr (notes_failure_prefix ++ exn_str e)).

(** The [if score < 50 ... elif score < 80 ... else] chain. *)
Definition status_of (rt : Runtime) (score : value) : result str :=
  match lt_int rt score 50 with
  | Raise e => Raise e
  | Return true => Return status_normal
  | Return false =>
    match lt_int rt score 80 with
    | Raise e => Raise e
    | Return true => Return status_suspect
    | Return false => Return status_outdated
    end
  end.

Definition analyze (rt : Runtime) (crawl_result : Crawler.CrawlResult)
  : M AnalysisResult :=
  match Crawler.html crawl_result with
  | None | Some [] =>
    ret {| url := Crawler.url crawl_result;
           status := status_error;
           last_updated := Some [];
           score := VInt 100;
           notes := VStr notes_unfetched;
           broken_links := [] |}
  | Some ((_ :: _) as page) =>
    let today_str := now_ymd rt in
    let prompt := build_prompt today_str crawl_result page in
    '(score, notes) <- try_except (resolve rt prompt)
                                  (on_error rt crawl_result) ;;
    status <- lift (status_of rt score) ;;
    ret {| url := Crawler.url crawl_result;
           status := status;
           last_updated := Crawler.last_updated crawl_result;
           score := score;
           notes := notes;
           broken_links := broken_links_str crawl_result |}
  end.

End Analyzer.

(** * Vocabulary of the statements *)

(** ** Evaluations *)

Module Spec.
Import Py PyVal Analyzer.

(** A page is present when [html] is neither [None] nor empty. *)
Definition page_present (cr : Crawler.CrawlResult) : Prop :=
  exists c page, Crawler.html cr = Some (c :: page).

Definition page_absent (cr : Crawler.CrawlResult) : Prop :=
  Crawler.html cr = None \/ Crawler.html cr = Some [].

(** The verdict returned without a page. *)
Definition sentinel (cr : Crawler.CrawlResult) : AnalysisResult :=
  {| url := Crawler.url cr;
     status := status_error;
     last_updated := Some [];
     score := VInt 100;
     notes := VStr notes_unfetched;
     broken_links := [] |}.

(** The prompt [analyze] builds for a crawl result with a page. *)
Definition prompt_of (rt : Runtime) (cr : Crawler.CrawlResult) : str :=
  match Crawler.html cr with
  | Some page => build_prompt (now_ymd rt) cr page
  | None => []
  end.

(** The world after a prompt was sent, and after a line was printed. *)
Definition sent (w : World) (prompt : str) : World :=
  {| requests := requests w ++ [prompt]; stdout := stdout w |}.

Definition printed (w : World) (line : str) : World :=
  {| requests := requests w; stdout := stdout w ++ [line] |}.

(** [d.get(key, default)] on the items of a [dict]. *)
Definition field (d : list (str * value)) (key : str) (default : value) : value :=
  match dict_lookup d key with
  | Some v => v
  | None => default
  end.

(** The reply parses as a JSON object with the items [d]: the call
    returns a text, and the cleaned text decodes to a [dict]. *)
Definition parses_as (rt : Runtime) (prompt : str) (d : list (str * value))
  : Prop :=
  exists text,
    generate_content rt prompt = Return text
    /\ Json.loads (int_max_str_digits rt) (recursion_depth rt)
                  (clean_response text) = Return (VDict d).

(** The call or the parse fails with [e]: the service raises, the cleaned
    text is not JSON, or it is JSON but not an object. *)
Definition fails_with (rt : Runtime) (prompt : str) (e : exn) : Prop :=
  generate_content rt prompt = Raise e
  \/ exists text,
       generate_content rt prompt = Return text
       /\ (Json.loads (int_max_str_digits rt) (recursion_depth rt)
                      (clean_response text) = Raise e
           \/ exists data,
                Json.loads (int_max_str_digits rt) (recursion_depth rt)
                           (clean_response text) = Return data
                /\ get data (u "score") (VInt 100) = Raise e).

(** The [except] clause absorbs [e]: it is an instance of [Exception],
    and the line that reports it can be printed. *)
Definition absorbed (rt : Runtime) (cr : Crawler.CrawlResult) (e : exn)
  : Prop :=
  is_exception e = true /\ print_raises rt (failure_line cr e) = None.

(** The score is an integer of the rubric's range. *)
Definition score_in_range (v : value) : Prop :=
  exists n, v = VInt n /\ 0 <= n <= 100.

(** The three statuses of the rubric. *)
Definition rubric_status (st : str) : Prop :=
  st = status_normal \/ st = status_suspect \/ st = status_outdated.

(** What the [try] statement leaves in [score] and [notes]. *)
Definition resolved (rt : Runtime) (cr : Crawler.CrawlResult) (prompt : str)
  : M (value * value) :=
  try_except (resolve rt prompt) (on_error rt cr).

(** The verdict assembled from a resolved score and notes. *)
Definition verdict (cr : Crawler.CrawlResult) (st : str) (sc nt : value)
  : AnalysisResult :=
  {| url := Crawler.url cr;
     status := st;
     last_updated := Crawler.last_updated cr;
     score := sc;
     notes := nt;
     broken_links := broken_links_str cr |}.

(** A service that answers every prompt with [reply], in an interpreter
    with the default limits, IEEE-754 doubles and a UTF-8 standard
    output. *)
Definition stub (reply : result str) : Runtime :=
  {| now_ymd := u "2026-01-01";
     generate_content := fun _ => reply;
     float_lt := PyFloat.lt_int;
     int_max_str_digits := 4300;
     recursion_depth := 900;
     print_raises := Stdout.utf8_strict |}.

Definition w0 : World := {| requests := []; stdout := [] |}.

(** The status the thresholds give an integer score. *)
Definition by_thresholds (n : Z) (st : str) : Prop :=
  (n < 50 /\ st = status_normal)
  \/ (50 <= n < 80 /\ st = status_suspect)
  \/ (80 <= n /\ st = status_outdated).

(** The verdict the spec's end-to-end scenario expects. *)
Definition verdict_85 : AnalysisResult :=
  {| url := u "https://example.gov";
     status := status_outdated;
     last_updated := Some (u "2019-01-01");
     score := VInt 85;
     notes := VStr (u "stale content");
     broken_links := u "https://x (狀態: 500)" |}.



(** A reply whose notes hold a backtick between the two escapes of a
    surrogate pair, and a reply with a backtick in a member name. *)
Definition reply_split_pair : str :=
  q [u "{"; u "score"; u ": 10, "; u "notes"; u ": "; u "\ud83d`\ude00"; u "}"].
Definition reply_ticked_name : str :=
  q [u "{"; u "score"; u ": 10, "; u "notes"; u ": "; u "a"; u ", ";
     u "no`tes"; u ": "; u "b"; u "}"].


Definition reply_notes_only : str :=
  q [u "{"; u "notes"; u ": "; u "x"; u "}"].

(** A reply with the integer score [n]. *)
Definition reply_scored (n : str) : str :=
  q [u "{"; u "score"; u ": " ++ n ++ u ", "; u "notes"; u ": "; u "x"; u "}"].

(** The crawl result of the spec's end-to-end scenario. *)
Definition example_gov : Crawler.CrawlResult :=
  {| Crawler.url := u "https://example.gov";
     Crawler.html := Some (u "<html>...</html>");
     Crawler.last_updated := Some (u "2019-01-01");
     Crawler.link_status := [(u "https://x", 500)] |}.

(** The same page under a url that ends in a lone surrogate, which no
    UTF-8 stream can write. *)
Definition example_lone_surrogate : Crawler.CrawlResult :=
  {| Crawler.url := u "https://example.gov" ++ [55357%N];
     Crawler.html := Some (u "<html>...</html>");
     Crawler.last_updated := Some (u "2019-01-01");
     Crawler.link_status := [(u "https://x", 500)] |}.

(** The same page, not fetched. *)
Definition example_unfetched : Crawler.CrawlResult :=
  {| Crawler.url := u "https://example.gov";
     Crawler.html := None;
     Crawler.last_updated := Some (u "2019-01-01");
     Crawler.link_status := [(u "https://x", 500)] |}.

(** Replies of the service, as texts. *)
Definition reply_85 : str :=
  q [u "{"; u "score"; u ": 85, "; u "notes"; u ": "; u "stale content"; u "}"].
Definition reply_100 : str :=
  q [u "{"; u "score"; u ": 100, "; u "notes"; u ": "; u "stale content"; u "}"].
Definition reply_150 : str :=
  q [u "{"; u "score"; u ": 150, "; u "notes"; u ": "; u "x"; u "}"].
Definition reply_high : str :=
  q [u "{"; u "score"; u ": "; u "high"; u ", "; u "notes"; u ": "; u "x"; u "}"].

(** A reply inside a Markdown fence: three backticks, a language tag
    (possibly empty), the body between whitespace, three backticks. *)
Definition fence : str := [96; 96; 96]%N.
Definition fenced (tag w1 body w2 : str) : str :=
  fence ++ tag ++ w1 ++ body ++ w2 ++ fence.

Definition reply_fenced : str := fenced (u "json") [10%N] reply_85 [10%N].

(** An environment with the credential, and one without. *)
Definition env_with_key (name : str) : option str :=
  if str_eqb name (u "GEMINI_API_KEY") then Some (u "k-123") else None.
Definition env_without_key (name : str) : option str := None.

(** Values the comparison with an integer refuses. *)
Definition non_numeric (v : value) : Prop :=
  match v with
  | VNone | VStr _ | VList _ | VDict _ => True
  | VBool _ | VInt _ | VFloat _ => False
  end.

Definition comparison_error (v : value) : exn :=
  TypeError (u "'<' not supported between instances of '"
               ++ type_name v ++ u "' and 'int'").

(** The verdict of the fail-safe path. *)
Definition fail_safe (cr : Crawler.CrawlResult) (e : exn) : AnalysisResult :=
  verdict cr status_outdated (VInt 100)
          (VStr (notes_failure_prefix ++ exn_str e)).

(** Replies that are not usable. *)
Definition reply_array : str := u "[1]".
Definition reply_true_score : str :=
  q [u "{"; u "score"; u ": true}"].

(** The two ways the [try] statement ends without an exception. *)
Inductive resolution (rt : Runtime) (cr : Crawler.CrawlResult) (w : World)
  : value -> value -> World -> Prop :=
| FromReply d :
    parses_as rt (prompt_of rt cr) d ->
    resolution rt cr w (field d (u "score") (VInt 100))
               (field d (u "notes") (VStr notes_no_reply))
               (sent w (prompt_of rt cr))
| FailSafe e :
    fails_with rt (prompt_of rt cr) e ->
    absorbed rt cr e ->
    resolution rt cr w (VInt 100) (VStr (notes_failure_prefix ++ exn_str e))
               (printed (sent w (prompt_of rt cr)) (failure_line cr e)).

End Spec.

(** ** JSON texts

    The texts of the JSON grammar, with their layout: what a service that
    follows the prompt's format writes.  String literals are written with
    plain characters, one-character escapes and [\uXXXX] escapes. *)

Module JsonText.
Import Py PyVal Json.

(** A character of a string literal: itself, a backslash and a letter, or
    a backslash, [u] and four hexadecimal digits. *)
Inductive item :=
| Plain (c : char)
| Escape (e : char)
| Unicode (h1 h2 h3 h4 : char).

Definition item_ok (i : item) : bool :=
  match i with
  | Plain c => negb (c <=? 31)%N && negb (c =? 34)%N && negb (c =? 92)%N
  | Escape e => match simple_escape e with Some _ => true | None => false end
  | Unicode h1 h2 h3 h4 =>
    match hex4 h1 h2 h3 h4 with Some _ => true | None => false end
  end.

Definition render_item (i : item) : str :=
  match i with
  | Plain c => [c]
  | Escape e => [92%N; e]
  | Unicode h1 h2 h3 h4 => [92%N; 117%N; h1; h2; h3; h4]
  end.

(** The character, or the UTF-16 code unit, an item stands for. *)
Definition item_char (i : item) : char :=
  match i with
  | Plain c => c
  | Escape e => match simple_escape e with Some c => c | None => e end
  | Unicode h1 h2 h3 h4 =>
    match hex4 h1 h2 h3 h4 with Some c => c | None => 0%N end
  end.

Definition high_escape (i : item) : bool :=
  match i with
  | Unicode _ _ _ _ => is_high_surrogate (item_char i)
  | _ => false
  end.

Definition low_escape (i : item) : bool :=
  match i with
  | Unicode _ _ _ _ => is_low_surrogate (item_char i)
  | _ => false
  end.

Definition render_string (items : list item) : str :=
  34%N :: flat_map render_item items ++ [34%N].

(** The string a literal denotes: the escape of a high surrogate and the
    escape of a low surrogate that follows it at once are one character. *)
Fixpoint string_value (items : list item) : str :=
  match items with
  | [] => []
  | i :: rest =>
    match rest with
    | j :: rest' =>
      if high_escape i && low_escape j
      then join_surrogates (item_char i) (item_char j) :: string_value rest'
      else item_char i :: string_value rest
    | [] => [item_char i]
    end
  end.

(** A number: sign, integer digits, fraction digits (none when empty), and
    exponent (its letter, its sign if any, its digits). *)
Record number := {
  negative : bool;
  integer : str;
  fraction : str;
  exponent : option (char * str * str)
}.

Definition integer_ok (ds : str) : bool :=
  match ds with
  | [d] => is_digit d
  | d :: ds' => ((49 <=? d) && (d <=? 57))%N && forallb is_digit ds'
  | [] => false
  end.

Definition exponent_ok (ex : option (char * str * str)) : bool :=
  match ex with
  | None => true
  | Some (e, sg, ds) =>
    ((e =? 101) || (e =? 69))%N
    && match sg with
       | [] => true
       | [g] => ((g =? 43) || (g =? 45))%N
       | _ => false
       end
    && match ds with [] => false | _ :: _ => forallb is_digit ds end
  end.

Definition is_int (n : number) : bool :=
  match fraction n, exponent n with
  | [], None => true
  | _, _ => false
  end.

(** [max_digits] is the interpreter's limit on [int] numerals. *)
Definition number_ok (max_digits : nat) (n : number) : bool :=
  integer_ok (integer n) && forallb is_digit (fraction n)
  && exponent_ok (exponent n)
  && (negb (is_int n)
      || negb ((640 <? List.length (integer n))%nat && (0 <? max_digits)%nat
               && (max_digits <? List.length (integer n))%nat)).

Definition fraction_text (fr : str) : str :=
  match fr with [] => [] | _ :: _ => 46%N :: fr end.

Definition exponent_text (ex : option (char * str * str)) : str :=
  match ex with
  | Some (e, sg, ds) => e :: sg ++ ds
  | None => []
  end.

Definition render_number (n : number) : str :=
  (if negative n then [45%N] else [])
  ++ integer n ++ fraction_text (fraction n) ++ exponent_text (exponent n).

Definition number_value (n : number) : value :=
  if is_int n
  then VInt (if negative n then - Z_of_digits (integer n)
             else Z_of_digits (integer n))
  else VFloat (render_number n).

(** A text: a scalar, an array of elements or an object of members, each
    with the whitespace around it.  The whitespace of an array or object
    itself is what stands between its brackets when it is empty. *)
Inductive text :=
| TNull
| TBool (b : bool)
| TNumber (n : number)
| TNaN
| TInfinity (neg : bool)
| TString (items : list item)
| TArray (ws : str) (elems : list (str * text * str))
| TObject (ws : str)
          (members : list (str * list item * str * str * text * str)).

Definition element := (str * text * str)%type.
Definition member := (str * list item * str * str * text * str)%type.

Definition member_key (m : member) : list item :=
  let '(_, k, _, _, _, _) := m in k.
Definition member_text (m : member) : text :=
  let '(_, _, _, _, v, _) := m in v.

Fixpoint render (t : text) : str :=
  match t with
  | TNull => u "null"
  | TBool true => u "true"
  | TBool false => u "false"
  | TNumber n => render_number n
  | TNaN => u "NaN"
  | TInfinity neg => if neg then u "-Infinity" else u "Infinity"
  | TString items => render_string items
  | TArray ws elems =>
    91%N :: match elems with
            | [] => ws
            | _ :: _ =>
              join [44%N]
                   (map (fun el : element =>
                           let '(pre, v, post) := el in pre ++ render v ++ post)
                        elems)
            end ++ [93%N]
  | TObject ws members =>
    123%N :: match members with
             | [] => ws
             | _ :: _ =>
               join [44%N]
                    (map (fun m : member =>
                            let '(pre, k, w1, w2, v, post) := m in
                            pre ++ render_string k ++ w1 ++ [58%N] ++ w2
                                ++ render v ++ post)
                         members)
             end ++ [125%N]
  end.

(** The value a text denotes: later members replace earlier ones of the
    same name. *)
Fixpoint value_of (t : text) : value :=
  match t with
  | TNull => VNone
  | TBool b => VBool b
  | TNumber n => number_value n
  | TNaN => VFloat (u "NaN")
  | TInfinity neg => VFloat (if neg then u "-Infinity" else u "Infinity")
  | TString items => VStr (string_value items)
  | TArray _ elems =>
    VList (map (fun el : element => let '(_, v, _) := el in value_of v) elems)
  | TObject _ members =>
    VDict (fold_left
             (fun d (m : member) =>
                let '(_, k, _, _, v, _) := m in
                dict_setitem d (string_value k) (value_of v))
             members [])
  end.

Definition render_element (el : element) : str :=
  let '(pre, v, post) := el in pre ++ render v ++ post.

Definition render_member (m : member) : str :=
  let '(pre, k, w1, w2, v, post) := m in
  pre ++ render_string k ++ w1 ++ [58%N] ++ w2 ++ render v ++ post.

Definition element_value (el : element) : value :=
  let '(_, v, _) := el in value_of v.

Definition add_member (d : list (str * value)) (m : member)
  : list (str * value) :=
  let '(_, k, _, _, v, _) := m in
  dict_setitem d (string_value k) (value_of v).

Definition all_ws (s : str) : bool := forallb is_ws s.

Definition element_ok (ok : text -> bool) (el : element) : bool :=
  let '(pre, v, post) := el in all_ws pre && ok v && all_ws post.

Definition member_ok (ok : text -> bool) (m : member) : bool :=
  let '(pre, k, w1, w2, v, post) := m in
  all_ws pre && forallb item_ok k && all_ws w1 && all_ws w2
  && ok v && all_ws post.

(** Well-formed texts: whitespace where whitespace is meant, digits in
    numbers, escapes that exist. *)
Fixpoint text_ok (max_digits : nat) (t : text) : bool :=
  match t with
  | TNumber n => number_ok max_digits n
  | TString items => forallb item_ok items
  | TArray ws elems =>
    all_ws ws
    && forallb (fun el : element =>
                  let '(pre, v, post) := el in
                  all_ws pre && text_ok max_digits v && all_ws post) elems
  | TObject ws members =>
    all_ws ws
    && forallb (fun m : member =>
                  let '(pre, k, w1, w2, v, post) := m in
                  all_ws pre && forallb item_ok k && all_ws w1 && all_ws w2
                  && text_ok max_digits v && all_ws post) members
  | _ => true
  end.

(** How deep arrays and objects are nested. *)
Fixpoint depth (t : text) : nat :=
  match t with
  | TArray _ elems =>
    S (fold_right (fun (el : element) n =>
                     let '(_, v, _) := el in Nat.max (depth v) n) O elems)
  | TObject _ members =>
    S (fold_right (fun (m : member) n =>
                     let '(_, _, _, _, v, _) := m in Nat.max (depth v) n)
                  O members)
  | _ => O
  end.

(** The text without its backticks: a backtick can only stand in a string
    literal, as a plain character. *)
Definition is_tick (i : item) : bool :=
  match i with
  | Plain c => (c =? 96)%N
  | _ => false
  end.

Definition without_ticks (items : list item) : list item :=
  filter (fun i => negb (is_tick i)) items.

Fixpoint strip_ticks (t : text) : text :=
  match t with
  | TString items => TString (without_ticks items)
  | TArray ws elems =>
    TArray ws (map (fun el : element =>
                      let '(pre, v, post) := el in (pre, strip_ticks v, post))
                   elems)
  | TObject ws members =>
    TObject ws (map (fun m : member =>
                       let '(pre, k, w1, w2, v, post) := m in
                       (pre, without_ticks k, w1, w2, strip_ticks v, post))
                    members)
  | other => other
  end.

Definition strip_element (el : element) : element :=
  let '(pre, v, post) := el in (pre, strip_ticks v, post).

Definition strip_member (m : member) : member :=
  let '(pre, k, w1, w2, v, post) := m in
  (pre, without_ticks k, w1, w2, strip_ticks v, post).

(** A string literal written without escapes. *)
Definition plain (s : str) : list item := map Plain s.



Definition small_number (digits : str) : text :=
  TNumber {| negative := false; integer := digits;
             fraction := []; exponent := None |}.

(** The text [{"score": 85, "notes": "stale content"}]. *)
Definition stale_members : list member :=
  [ ([], plain (u "score"), [], [32%N], small_number (u "85"), []);
    ([32%N], plain (u "notes"), [], [32%N],
     TString (plain (u "stale content")), []) ].

(** The text [{"score": 10, "score": 90}]. *)
Definition twice_members : list member :=
  [ ([], plain (u "score"), [], [32%N], small_number (u "10"), []);
    ([32%N], plain (u "score"), [], [32%N], small_number (u "90"), []) ].

(** The member an object's name stands for: the last one so named. *)
Fixpoint find_member (name : str) (members : list member) : option text :=
  match members with
  | [] => None
  | mb :: members' =>
    match find_member name members' with
    | Some v => Some v
    | None =>
      if str_eqb (string_value (member_key mb)) name
      then Some (member_text mb) else None
    end
  end.





(** No member name of the object has a backtick. *)
Definition names_without_ticks (members : list member) : bool :=
  forallb (fun m : member => forallb (fun i => negb (is_tick i)) (member_key m))
          members.

(** What may follow a value inside a text: the end, whitespace, a comma or
    a closing bracket. *)
Definition follows (rest : str) : bool :=
  match rest with
  | [] => true
  | c :: _ => is_ws c || (c =? 44)%N || (c =? 93)%N || (c =? 125)%N
  end.

(** No digit comes next. *)
Definition no_digit_ahead (s : str) : bool :=
  match s with
  | [] => true
  | c :: _ => negb (is_digit c)
  end.

(** The first character of a text is neither whitespace, nor a closing
    bracket, nor a byte order mark. *)
Definition opens (c : char) : bool :=
  negb (is_ws c) && negb (c =? 93)%N && negb (c =? 125)%N
  && negb (c =? 65279)%N.

(** What follows a value in an array or an object: its trailing
    whitespace, then a comma and the other items, or the closing bracket. *)
Definition closing (close : char) (others : list str) (rest : str) : str :=
  match others with
  | [] => close :: rest
  | _ :: _ => 44%N :: join [44%N] others ++ close :: rest
  end.

(** Neither an array nor an object. *)
Definition scalar (t : text) : bool :=
  match t with
  | TArray _ _ | TObject _ _ => false
  | _ => true
  end.

(** A string without backticks. *)
Definition tickless (s : str) : bool := forallb (fun c => negb (c =? 96)%N) s.

(** An element, or a member, whose whitespace is whitespace and whose
    value satisfies [inner]. *)
Definition good_element (inner : text -> Prop) (el : element) : Prop :=
  let '(pre, v, post) := el in
  all_ws pre = true /\ inner v /\ all_ws post = true.

Definition good_member (inner : text -> Prop) (mb : member) : Prop :=
  let '(pre, k, w1, w2, v, post) := mb in
  all_ws pre = true /\ forallb item_ok k = true /\ all_ws w1 = true
  /\ all_ws w2 = true /\ inner v /\ all_ws post = true.

End JsonText.

(** * Lemmas *)

(** ** Literals and numerals *)

Example u_cjk : Py.u "錯誤" = [37679; 35492]%N.
Proof. reflexivity. Qed.

Example str_of_Z_ex :
  Py.str_of_Z 404 = Py.u "404" /\ Py.str_of_Z 0 = Py.u "0"
  /\ Py.str_of_Z (-5) = Py.u "-5".
Proof. repeat split; reflexivity. Qed.

Example strip_ex : Py.strip (Py.u "  a b
 ") = Py.u "a b".
Proof. reflexivity. Qed.

(** Floats are compared by their IEEE-754 value: the numeral next under
    50 that rounds to 50.0 is not below 50. *)
Example float_lt_ex :
  PyFloat.lt_int (Py.u "49.5") 50 = true
  /\ PyFloat.lt_int (Py.u "5e1") 50 = false
  /\ PyFloat.lt_int (Py.u "49.99999999999999999") 50 = false
  /\ PyFloat.lt_int (Py.u "49.999999999999") 50 = true
  /\ PyFloat.lt_int (Py.u "-1e999") 50 = true
  /\ PyFloat.lt_int (Py.u "1e999") 50 = false
  /\ PyFloat.lt_int (Py.u "NaN") 50 = false
  /\ PyFloat.lt_int (Py.u "-Infinity") 50 = true.
Proof. repeat split; vm_compute; reflexivity. Qed.

Example utf8_strict_ex :
  Stdout.utf8_strict (Py.u "https://example.gov") = None
  /\ Stdout.utf8_strict [97; 55357; 56832; 98]%N
     = Some (PyVal.UnicodeEncodeError
               (Py.u "'utf-8' codec can't encode characters in position 1-2: surrogates not allowed")).
Proof. split; vm_compute; reflexivity. Qed.

(** A string literal with a surrogate pair, a lone surrogate and an
    escaped backtick. *)
Example string_value_ex :
  JsonText.string_value
    [JsonText.Unicode 100 56 51 100; JsonText.Unicode 100 101 48 48;
     JsonText.Unicode 68 56 51 68; JsonText.Plain 97;
     JsonText.Unicode 48 48 54 48]%N
  = [128512; 55357; 97; 96]%N.
Proof. reflexivity. Qed.

(** ** The decoder consumes what it scans

    Every scan that succeeds returns strictly less text than it was given,
    so the bound of the item loops is never reached. *)

Module JsonFacts.
Import Py PyVal Json.

Lemma skip_ws_length s : (List.length (skip_ws s) <= List.length s)%nat.
Proof.
  induction s as [|c s IH]; simpl; [lia|].
  destruct (is_ws c); simpl; lia.
Qed.

Lemma span_digits_length s :
  (List.length (snd (span_digits s)) <= List.length s)%nat.
Proof.
  induction s as [|c s IH]; simpl; [lia|].
  destruct (is_digit c); simpl; [|lia].
  destruct (span_digits s); simpl in *; lia.
Qed.

Lemma consumes_le {A} n m (r : scan A) :
  (n <= m)%nat -> consumes n r -> consumes m r.
Proof. destruct r; simpl; auto; lia. Qed.

Lemma consumes_cons_char n c r : consumes n r -> consumes n (cons_char c r).
Proof. destruct r; simpl; auto. Qed.

Lemma scanstring_consumes b s : consumes (S (List.length s)) (scanstring b s).
Proof.
  remember (List.length s) as n eqn:Hn.
  assert (Hle : (List.length s <= n)%nat) by lia. clear Hn.
  revert s Hle. induction n as [n IH] using lt_wf_ind. intros s Hle.
  assert (Hrec : forall t, (List.length t < List.length s)%nat ->
                           consumes (S n) (scanstring b t)).
  { intros t Ht.
    apply consumes_le with (n := S (List.length t)); [lia|].
    apply (IH (List.length t)); lia. }
  destruct s as [|c r]; [exact I|].
  cbn [scanstring]. simpl in Hle.
  destruct (c =? 34)%N; [simpl; lia|].
  destruct (c =? 92)%N.
  - destruct r as [|e r1]; [exact I|].
    destruct (e =? 117)%N.
    + destruct r1 as [|h1 [|h2 [|h3 [|h4 [|x r2]]]]]; try exact I.
      destruct (hex4 h1 h2 h3 h4) as [c1|]; [|exact I].
      destruct r2 as [|v [|g1 [|g2 [|g3 [|g4 [|y r3]]]]]];
        try (apply consumes_cons_char, Hrec; simpl; lia).
      destruct (is_high_surrogate c1 && (x =? 92)%N && (v =? 117)%N).
      * destruct (hex4 g1 g2 g3 g4) as [c2|]; [|exact I].
        destruct (is_low_surrogate c2);
          apply consumes_cons_char, Hrec; simpl; lia.
      * apply consumes_cons_char, Hrec; simpl; lia.
    + destruct (simple_escape e); [|exact I].
      apply consumes_cons_char, Hrec; simpl; lia.
  - destruct (c <=? 31)%N; [exact I|].
    apply consumes_cons_char, Hrec; simpl; lia.
Qed.

Ltac number_step :=
  match goal with
  | |- context [span_digits ?x] =>
    let H := fresh "Hsp" in
    pose proof (span_digits_length x) as H;
    destruct (span_digits x); cbn [snd fst] in H
  | |- context [if ?b then _ else _] => destruct b
  | |- context [match ?x with [] => _ | _ :: _ => _ end] => destruct x
  end.

Lemma match_number_consumes m s :
  consumes (List.length s) (match_number m s).
Proof.
  unfold match_number, scan_sign, scan_integer, scan_fraction, scan_exponent.
  destruct s as [|c0 r0]; [exact I|].
  repeat first [ progress cbn beta iota zeta | number_step ].
  all: cbn [consumes List.length] in *; try exact I; lia.
Qed.

Lemma constant_consumes name v m s :
  name <> [] -> consumes (List.length s) (constant name v m s).
Proof.
  intros Hname. unfold constant.
  destruct (startswith name s) eqn:E; [|apply match_number_consumes].
  simpl. destruct name as [|c name]; [contradiction|].
  destruct s as [|d s]; [discriminate|].
  simpl. pose proof (length_skipn (List.length name) s). lia.
Qed.

Lemma elements_consumes f k s acc :
  consuming f -> (List.length s < k)%nat ->
  consumes (List.length s) (elements f k s acc).
Proof.
  intros Hf. revert s acc. induction k as [|k IH]; intros s acc Hk; [lia|].
  cbn [elements]. unfold bind.
  pose proof (Hf s) as Hs.
  destruct (f s) as [v r| | | |]; simpl in Hs; try exact I; [|contradiction].
  pose proof (skip_ws_length r) as Hr.
  destruct (skip_ws r) as [|c r2] eqn:E; [exact I|]. simpl in Hr.
  destruct (c =? 93)%N; [simpl; lia|].
  destruct (c =? 44)%N; [|exact I].
  pose proof (skip_ws_length r2) as Hr2.
  eapply consumes_le; [|apply IH; lia]. lia.
Qed.

Lemma parse_array_consumes f s :
  consuming f -> consumes (S (List.length s)) (parse_array f s).
Proof.
  intros Hf. unfold parse_array.
  pose proof (skip_ws_length s) as Hs.
  destruct (skip_ws s) as [|c r] eqn:E.
  - eapply consumes_le; [|apply elements_consumes; [exact Hf|simpl; lia]].
    simpl; lia.
  - simpl in Hs. destruct (c =? 93)%N; [simpl; lia|].
    eapply consumes_le; [|apply elements_consumes; [exact Hf|simpl; lia]].
    simpl; lia.
Qed.

Lemma members_consumes f k s acc :
  consuming f -> (List.length s < k)%nat ->
  consumes (List.length s) (members f k s acc).
Proof.
  intros Hf. revert s acc. induction k as [|k IH]; intros s acc Hk; [lia|].
  cbn [members]. destruct s as [|q0 r]; [exact I|].
  destruct (q0 =? 34)%N; [|exact I].
  unfold bind at 1.
  pose proof (scanstring_consumes (List.length (q0 :: r)) r) as Hk1.
  destruct (scanstring _ r) as [key r1| | | |]; simpl in Hk1;
    try exact I; [|contradiction].
  pose proof (skip_ws_length r1) as Hr1.
  destruct (skip_ws r1) as [|c r3] eqn:E1; [exact I|]. simpl in Hr1.
  destruct (c =? 58)%N; [|exact I].
  unfold bind.
  pose proof (skip_ws_length r3) as Hr3.
  pose proof (Hf (skip_ws r3)) as Hv.
  destruct (f (skip_ws r3)) as [v r5| | | |]; simpl in Hv;
    try exact I; [|contradiction].
  pose proof (skip_ws_length r5) as Hr5.
  destruct (skip_ws r5) as [|c' r7] eqn:E5; [exact I|]. simpl in Hr5.
  destruct (c' =? 125)%N; [simpl; lia|].
  destruct (c' =? 44)%N; [|exact I].
  pose proof (skip_ws_length r7) as Hr7.
  eapply consumes_le; [|apply IH; simpl in *; lia]. simpl; lia.
Qed.

Lemma parse_object_consumes f s :
  consuming f -> consumes (S (List.length s)) (parse_object f s).
Proof.
  intros Hf. unfold parse_object.
  pose proof (skip_ws_length s) as Hs.
  destruct (skip_ws s) as [|c r] eqn:E.
  - eapply consumes_le; [|apply members_consumes; [exact Hf|simpl; lia]].
    simpl; lia.
  - simpl in Hs. destruct (c =? 125)%N; [simpl; lia|].
    eapply consumes_le; [|apply members_consumes; [exact Hf|simpl; lia]].
    simpl; lia.
Qed.

Lemma scan_once_consuming m depth : consuming (scan_once m depth).
Proof.
  induction depth as [|depth IH]; intros s.
  all: destruct s as [|c r]; [exact I|].
  all: cbn [scan_once].
  all: destruct (c =? 34)%N;
    [ unfold bind;
      pose proof (scanstring_consumes (List.length (c :: r)) r) as H;
      destruct (scanstring _ r); simpl in *; auto |].
  all: destruct (c =? 123)%N;
    [ first [exact I | apply parse_object_consumes; exact IH] |].
  all: destruct (c =? 91)%N;
    [ first [exact I | apply parse_array_consumes; exact IH] |].
  all: repeat match goal with
       | |- context [if ?b then _ else _] =>
         destruct b; [apply constant_consumes; discriminate|]
       end.
  all: apply match_number_consumes.
Qed.

(** The bound of the item loops is never reached. *)
Lemma loads_not_exhausted m depth s : scan_once m depth s <> Exhausted.
Proof.
  pose proof (scan_once_consuming m depth s) as H.
  intros E. rewrite E in H. exact H.
Qed.

End JsonFacts.

(** ** The decoder accepts the texts of the grammar *)

Module JsonTextFacts.
Import Py PyVal Json JsonText.

Lemma skip_ws_app w s : all_ws w = true -> skip_ws (w ++ s) = skip_ws s.
Proof.
  induction w as [|c w IH]; simpl; [reflexivity|].
  intros H. apply andb_prop in H as [Hc Hw]. rewrite Hc. auto.
Qed.

Lemma skip_ws_stop c s : is_ws c = false -> skip_ws (c :: s) = c :: s.
Proof. intros H. simpl. rewrite H. reflexivity. Qed.

(** The scan of a [\uXXXX] escape, unfolded. *)
Lemma scanstring_u b h1 h2 h3 h4 x r :
  scanstring b (92%N :: 117%N :: h1 :: h2 :: h3 :: h4 :: x :: r)
  = match hex4 h1 h2 h3 h4 with
    | None =>
      DecodeError msg_uescape
                  (List.length (117%N :: h1 :: h2 :: h3 :: h4 :: x :: r))
    | Some c1 =>
      match x :: r with
      | b0 :: ((v :: g1 :: g2 :: g3 :: g4 :: ((_ :: _) as r3)) as rb) =>
        if (is_high_surrogate c1 && (b0 =? 92) && (v =? 117))%N then
          match hex4 g1 g2 g3 g4 with
          | None => DecodeError msg_uescape (List.length rb)
          | Some c2 =>
            if is_low_surrogate c2
            then cons_char (join_surrogates c1 c2) (scanstring b r3)
            else cons_char c1 (scanstring b (x :: r))
          end
        else cons_char c1 (scanstring b (x :: r))
      | _ => cons_char c1 (scanstring b (x :: r))
      end
    end.
Proof. reflexivity. Qed.

(** An escape that no escape of a low surrogate follows is one code unit. *)
Lemma scanstring_unicode b h1 h2 h3 h4 c1 x r :
  hex4 h1 h2 h3 h4 = Some c1 ->
  (is_high_surrogate c1 && (x =? 92) && (hd 0 r =? 117))%N = false ->
  scanstring b (92%N :: 117%N :: h1 :: h2 :: h3 :: h4 :: x :: r)
  = cons_char c1 (scanstring b (x :: r)).
Proof.
  intros Hh Hc. rewrite scanstring_u, Hh.
  destruct r as [|v [|g1 [|g2 [|g3 [|g4 [|y r3]]]]]]; try reflexivity.
  cbn [hd] in Hc. cbv beta iota. rewrite Hc. reflexivity.
Qed.

(** Two escapes in a row: one character when they are a surrogate pair. *)
Lemma scanstring_pair b h1 h2 h3 h4 c1 g1 g2 g3 g4 c2 y r3 :
  hex4 h1 h2 h3 h4 = Some c1 ->
  hex4 g1 g2 g3 g4 = Some c2 ->
  scanstring b (92%N :: 117%N :: h1 :: h2 :: h3 :: h4
                  :: 92%N :: 117%N :: g1 :: g2 :: g3 :: g4 :: y :: r3)
  = if is_high_surrogate c1 && is_low_surrogate c2
    then cons_char (join_surrogates c1 c2) (scanstring b (y :: r3))
    else cons_char c1
           (scanstring b (92%N :: 117%N :: g1 :: g2 :: g3 :: g4 :: y :: r3)).
Proof.
  intros Hh Hg. rewrite scanstring_u, Hh. cbv beta iota. rewrite Hg.
  change (92 =? 92)%N with true. change (117 =? 117)%N with true.
  rewrite !andb_true_r.
  destruct (is_high_surrogate c1); [|reflexivity].
  destruct (is_low_surrogate c2); reflexivity.
Qed.

Lemma string_value_cons i items :
  string_value (i :: items)
  = match items with
    | j :: rest =>
      if high_escape i && low_escape j
      then join_surrogates (item_char i) (item_char j) :: string_value rest
      else item_char i :: string_value items
    | [] => [item_char i]
    end.
Proof. destruct items; reflexivity. Qed.

(** An item that is not the escape of a high surrogate is one character
    of the value. *)
Lemma string_value_single i items :
  high_escape i = false ->
  string_value (i :: items) = item_char i :: string_value items.
Proof.
  intros H. rewrite string_value_cons. destruct items; [reflexivity|].
  rewrite H. reflexivity.
Qed.

Lemma cons_char_scanned c r t rest :
  r = Scanned t rest -> cons_char c r = Scanned (c :: t) rest.
Proof. intros ->. reflexivity. Qed.

Lemma render_items_open items rest :
  exists x r, flat_map render_item items ++ 34%N :: rest = x :: r.
Proof.
  destruct items as [|[c|e|h1 h2 h3 h4] items]; cbn [flat_map render_item app];
    eauto.
Qed.

Lemma scanstring_items_bounded b rest n :
  forall items,
    (List.length items <= n)%nat ->
    forallb item_ok items = true ->
    scanstring b (flat_map render_item items ++ 34%N :: rest)
    = Scanned (string_value items) rest.
Proof.
  induction n as [|n IH]; intros items Hn H.
  - destruct items; [reflexivity | simpl in Hn; lia].
  - destruct items as [|i items]; [reflexivity|].
    simpl in Hn. cbn [forallb] in H. apply andb_prop in H as [Hi Hitems].
    assert (Htl : scanstring b (flat_map render_item items ++ 34%N :: rest)
                  = Scanned (string_value items) rest)
      by (apply IH; [lia | exact Hitems]).
    destruct i as [c | e | h1 h2 h3 h4].
    + simpl in Hi. apply andb_prop in Hi as [Hi H92].
      apply andb_prop in Hi as [H31 H34].
      apply negb_true_iff in H92, H31, H34.
      change (flat_map render_item (Plain c :: items) ++ 34%N :: rest)
        with (c :: (flat_map render_item items ++ 34%N :: rest)).
      cbn [scanstring]. rewrite H34, H92, H31, Htl.
      rewrite string_value_single by reflexivity. reflexivity.
    + simpl in Hi.
      change (flat_map render_item (Escape e :: items) ++ 34%N :: rest)
        with (92%N :: e :: (flat_map render_item items ++ 34%N :: rest)).
      cbn [scanstring].
      change (92 =? 34)%N with false. change (92 =? 92)%N with true.
      cbv beta iota.
      assert (He : (e =? 117)%N = false).
      { destruct (e =? 117)%N eqn:E; [|reflexivity].
        apply N.eqb_eq in E. subst e. discriminate Hi. }
      rewrite He, string_value_single by reflexivity. cbn [item_char].
      destruct (simple_escape e) as [c1|]; [|discriminate].
      rewrite Htl. reflexivity.
    + cbn [item_ok] in Hi.
      destruct (hex4 h1 h2 h3 h4) as [c1|] eqn:Hh; [|discriminate Hi].
      change (flat_map render_item (Unicode h1 h2 h3 h4 :: items)
                ++ 34%N :: rest)
        with (92%N :: 117%N :: h1 :: h2 :: h3 :: h4
                :: (flat_map render_item items ++ 34%N :: rest)).
      assert (Hc1 : item_char (Unicode h1 h2 h3 h4) = c1)
        by (cbn [item_char]; rewrite Hh; reflexivity).
      rewrite string_value_cons.
      destruct items as [|j items].
      * cbn [flat_map app].
        rewrite (scanstring_unicode b h1 h2 h3 h4 c1 34%N rest Hh)
          by (rewrite andb_false_r; reflexivity).
        rewrite Hc1. reflexivity.
      * cbn [forallb] in Hitems. apply andb_prop in Hitems as [Hj Hitems'].
        destruct j as [c | e | g1 g2 g3 g4].
        -- change (flat_map render_item (Plain c :: items) ++ 34%N :: rest)
             with (c :: (flat_map render_item items ++ 34%N :: rest)) in *.
           simpl in Hj. apply andb_prop in Hj as [_ H92].
           apply negb_true_iff in H92.
           rewrite (scanstring_unicode b h1 h2 h3 h4 c1 c _ Hh)
             by (rewrite H92, andb_false_r; reflexivity).
           cbn [low_escape]. rewrite andb_false_r, Hc1.
           exact (cons_char_scanned _ _ _ _ Htl).
        -- change (flat_map render_item (Escape e :: items) ++ 34%N :: rest)
             with (92%N :: e :: (flat_map render_item items ++ 34%N :: rest))
             in *.
           assert (He : (e =? 117)%N = false).
           { destruct (e =? 117)%N eqn:E; [|reflexivity].
             apply N.eqb_eq in E. subst e. discriminate Hj. }
           rewrite (scanstring_unicode b h1 h2 h3 h4 c1 92%N _ Hh)
             by (cbn [hd]; rewrite He, andb_false_r; reflexivity).
           cbn [low_escape]. rewrite andb_false_r, Hc1.
           exact (cons_char_scanned _ _ _ _ Htl).
        -- cbn [item_ok] in Hj.
           destruct (hex4 g1 g2 g3 g4) as [c2|] eqn:Hg; [|discriminate Hj].
           change (flat_map render_item (Unicode g1 g2 g3 g4 :: items)
                     ++ 34%N :: rest)
             with (92%N :: 117%N :: g1 :: g2 :: g3 :: g4
                     :: (flat_map render_item items ++ 34%N :: rest)) in *.
           assert (Htl' : scanstring b (flat_map render_item items
                                          ++ 34%N :: rest)
                          = Scanned (string_value items) rest)
             by (apply IH; [simpl in Hn; lia | exact Hitems']).
           destruct (render_items_open items rest) as (y & r3 & Hy).
           rewrite Hy in *.
           rewrite (scanstring_pair b _ _ _ _ c1 _ _ _ _ c2 y r3 Hh Hg).
           assert (Hhi : high_escape (Unicode h1 h2 h3 h4)
                         = is_high_surrogate c1)
             by (cbn [high_escape]; rewrite Hc1; reflexivity).
           assert (Hc2 : item_char (Unicode g1 g2 g3 g4) = c2)
             by (cbn [item_char]; rewrite Hg; reflexivity).
           assert (Hlo : low_escape (Unicode g1 g2 g3 g4)
                         = is_low_surrogate c2)
             by (cbn [low_escape]; rewrite Hc2; reflexivity).
           rewrite Hhi, Hlo, Hc1, Hc2.
           destruct (is_high_surrogate c1 && is_low_surrogate c2).
           ++ exact (cons_char_scanned _ _ _ _ Htl').
           ++ exact (cons_char_scanned _ _ _ _ Htl).
Qed.

Lemma scanstring_items b items rest :
  forallb item_ok items = true ->
  scanstring b (flat_map render_item items ++ 34%N :: rest)
  = Scanned (string_value items) rest.
Proof.
  apply (scanstring_items_bounded b rest (List.length items)). lia.
Qed.

Lemma span_digits_app ds rest :
  forallb is_digit ds = true -> no_digit_ahead rest = true ->
  span_digits (ds ++ rest) = (ds, rest).
Proof.
  intros Hds Hrest. induction ds as [|d ds IH]; simpl.
  - destruct rest as [|c rest]; [reflexivity|]. simpl in Hrest.
    apply negb_true_iff in Hrest. simpl. rewrite Hrest. reflexivity.
  - simpl in Hds. apply andb_prop in Hds as [Hd Hds].
    rewrite Hd, (IH Hds). reflexivity.
Qed.

Ltac char_cases :=
  repeat match goal with
  | H : (_ || _)%bool = true |- _ => apply orb_prop in H as [H | H]
  | H : (_ && _)%bool = true |- _ => apply andb_prop in H as [? H]
  | H : (_ =? _)%N = true |- _ => apply N.eqb_eq in H; subst
  end.

Lemma follows_head rest :
  follows rest = true ->
  match rest with
  | [] => True
  | c :: _ =>
    is_digit c = false /\ (c =? 46)%N = false
    /\ ((c =? 101) || (c =? 69))%N = false
  end.
Proof.
  destruct rest as [|c rest]; [trivial|]. unfold follows, is_ws. intros H.
  char_cases; repeat split; reflexivity.
Qed.

Lemma follows_no_digit rest :
  follows rest = true -> no_digit_ahead rest = true.
Proof.
  intros H. apply follows_head in H. destruct rest as [|c rest]; [reflexivity|].
  destruct H as (H & _). simpl. rewrite H. reflexivity.
Qed.

Lemma scan_integer_render ip tail :
  integer_ok ip = true -> no_digit_ahead tail = true ->
  scan_integer (ip ++ tail) = Some (ip, tail).
Proof.
  intros Hip Htail. destruct ip as [|d ds]; [discriminate|].
  unfold scan_integer. cbn [app].
  destruct ((49 <=? d) && (d <=? 57))%N eqn:Hd.
  - assert (Hds : forallb is_digit ds = true).
    { destruct ds as [|d' ds']; [reflexivity|]. simpl in Hip.
      apply andb_prop in Hip as [_ Hip]. exact Hip. }
    rewrite (span_digits_app ds tail Hds Htail). reflexivity.
  - destruct ds as [|d' ds'].
    + simpl in Hip. unfold is_digit in Hip.
      assert (H48 : (d =? 48)%N = true).
      { apply andb_prop in Hip as [H1 H2].
        apply N.leb_le in H1, H2. apply N.eqb_eq.
        apply andb_false_iff in Hd as [Hd | Hd]; apply N.leb_gt in Hd; lia. }
      rewrite H48. reflexivity.
    + simpl in Hip. rewrite Hd in Hip. discriminate.
Qed.

Lemma scan_fraction_some f fr tail :
  forallb is_digit (f :: fr) = true -> no_digit_ahead tail = true ->
  scan_fraction (46%N :: (f :: fr) ++ tail) = (46%N :: f :: fr, tail).
Proof.
  intros Hfr Htail. unfold scan_fraction. cbn [app].
  pose proof Hfr as Hf. simpl in Hf. apply andb_prop in Hf as [Hf _].
  rewrite Hf. change (46 =? 46)%N with true. cbv beta iota.
  change (f :: fr ++ tail) with ((f :: fr) ++ tail).
  rewrite (span_digits_app (f :: fr) tail Hfr Htail). reflexivity.
Qed.

Lemma scan_fraction_none tail :
  match tail with [] => True | c :: _ => (c =? 46)%N = false end ->
  scan_fraction tail = ([], tail).
Proof.
  unfold scan_fraction. destruct tail as [|p [|d r]]; try reflexivity.
  intros ->. reflexivity.
Qed.

Lemma scan_exponent_some e sg ds tail :
  exponent_ok (Some (e, sg, ds)) = true -> no_digit_ahead tail = true ->
  scan_exponent (e :: sg ++ ds ++ tail) = (e :: sg ++ ds, tail).
Proof.
  intros Hex Htail. unfold exponent_ok in Hex.
  apply andb_prop in Hex as [Hex Hds]. apply andb_prop in Hex as [He Hsg].
  unfold scan_exponent. rewrite He.
  destruct ds as [|d ds]; [discriminate|].
  pose proof Hds as Hd. simpl in Hd. apply andb_prop in Hd as [Hd _].
  destruct sg as [|g [|g' sg']]; try discriminate.
  - cbn [app].
    assert (Hnot : ((d =? 45) || (d =? 43))%N = false).
    { unfold is_digit in Hd. apply andb_prop in Hd as [H1 H2].
      apply N.leb_le in H1, H2. apply orb_false_iff.
      split; apply N.eqb_neq; lia. }
    replace (match ds ++ tail with
             | [] => ([], d :: ds ++ tail)
             | _ :: _ =>
               if ((d =? 45) || (d =? 43))%N
               then ([d], ds ++ tail) else ([], d :: ds ++ tail)
             end) with (@nil char, d :: ds ++ tail)
      by (rewrite Hnot; destruct (ds ++ tail); reflexivity).
    change (d :: ds ++ tail) with ((d :: ds) ++ tail).
    rewrite (span_digits_app (d :: ds) tail Hds Htail). reflexivity.
  - cbn [app].
    assert (Hg : ((g =? 45) || (g =? 43))%N = true).
    { apply orb_prop in Hsg as [H | H]; rewrite H;
        [apply orb_true_r | reflexivity]. }
    rewrite Hg.
    change (d :: ds ++ tail) with ((d :: ds) ++ tail).
    rewrite (span_digits_app (d :: ds) tail Hds Htail). reflexivity.
Qed.

Lemma scan_exponent_none tail :
  match tail with
  | [] => True
  | c :: _ => ((c =? 101) || (c =? 69))%N = false
  end ->
  scan_exponent tail = ([], tail).
Proof.
  unfold scan_exponent. destruct tail as [|e r]; [reflexivity|].
  intros ->. reflexivity.
Qed.

Lemma scan_sign_render (neg : bool) ip tail :
  integer_ok ip = true ->
  scan_sign ((if neg then [45%N] else []) ++ ip ++ tail) = (neg, ip ++ tail).
Proof.
  intros Hip. destruct neg; [reflexivity|].
  destruct ip as [|d ds]; [discriminate|]. cbn [app scan_sign].
  assert (Hd : is_digit d = true).
  { destruct ds; simpl in Hip; [exact Hip|].
    apply andb_prop in Hip as [Hip _]. unfold is_digit.
    apply andb_prop in Hip as [H1 H2]. apply N.leb_le in H1, H2.
    apply andb_true_intro. split; apply N.leb_le; lia. }
  assert (H45 : (d =? 45)%N = false).
  { unfold is_digit in Hd. apply andb_prop in Hd as [H1 H2].
    apply N.leb_le in H1, H2. apply N.eqb_neq. lia. }
  rewrite H45. reflexivity.
Qed.

Lemma scan_fraction_render fr tail :
  forallb is_digit fr = true ->
  no_digit_ahead tail = true ->
  match tail with [] => True | c :: _ => (c =? 46)%N = false end ->
  scan_fraction (fraction_text fr ++ tail) = (fraction_text fr, tail).
Proof.
  intros Hfr Hd Hp. destruct fr as [|f fr].
  - apply scan_fraction_none. exact Hp.
  - apply scan_fraction_some; assumption.
Qed.

Lemma scan_exponent_render ex rest :
  exponent_ok ex = true -> follows rest = true ->
  scan_exponent (exponent_text ex ++ rest) = (exponent_text ex, rest).
Proof.
  intros Hex Hf. destruct ex as [[[e sg] ds]|].
  - unfold exponent_text. cbn [app]. rewrite <- app_assoc.
    apply scan_exponent_some; [exact Hex | apply follows_no_digit; exact Hf].
  - apply scan_exponent_none. apply follows_head in Hf.
    destruct rest; [trivial | apply Hf].
Qed.

Lemma exponent_text_head ex rest :
  exponent_ok ex = true -> follows rest = true ->
  no_digit_ahead (exponent_text ex ++ rest) = true
  /\ match exponent_text ex ++ rest with
     | [] => True
     | c :: _ => (c =? 46)%N = false
     end.
Proof.
  intros Hex Hf. destruct ex as [[[e sg] ds]|].
  - unfold exponent_ok in Hex. apply andb_prop in Hex as [Hex _].
    apply andb_prop in Hex as [He _]. cbn.
    apply orb_prop in He as [He | He]; apply N.eqb_eq in He; subst e;
      split; reflexivity.
  - cbn [exponent_text app]. split; [apply follows_no_digit; exact Hf|].
    apply follows_head in Hf. destruct rest; [trivial | apply Hf].
Qed.

Lemma fraction_text_head fr tail :
  no_digit_ahead tail = true ->
  no_digit_ahead (fraction_text fr ++ tail) = true.
Proof. intros H. destruct fr; [exact H | reflexivity]. Qed.

(** A number of the grammar is scanned whole, and denotes its value. *)
Lemma match_number_render m n rest :
  number_ok m n = true -> follows rest = true ->
  match_number m (render_number n ++ rest) = Scanned (number_value n) rest.
Proof.
  intros Hok Hf. destruct n as [neg ip fr ex].
  unfold number_ok, render_number, number_value, is_int in *.
  cbn [negative integer fraction exponent] in *.
  apply andb_prop in Hok as [Hok Hlim]. apply andb_prop in Hok as [Hok Hex].
  apply andb_prop in Hok as [Hip Hfr].
  destruct (exponent_text_head ex rest Hex Hf) as [Hd3 Hp3].
  pose proof (fraction_text_head fr _ Hd3) as Hd2.
  unfold match_number.
  rewrite <- !app_assoc.
  rewrite (scan_sign_render neg ip _ Hip).
  rewrite (scan_integer_render ip _ Hip Hd2).
  rewrite (scan_fraction_render fr _ Hfr Hd3 Hp3).
  rewrite (scan_exponent_render ex rest Hex Hf).
  destruct fr as [|f fr]; [destruct ex as [[[e sg] ds]|]|]; cbn [fraction_text exponent_text app].
  - reflexivity.
  - cbn [negb orb] in Hlim. apply negb_true_iff in Hlim. rewrite Hlim.
    reflexivity.
  - reflexivity.
Qed.

Lemma integer_head ip :
  integer_ok ip = true -> exists d ds, ip = d :: ds /\ is_digit d = true.
Proof.
  destruct ip as [|d ds]; [discriminate|]. intros H. exists d, ds.
  split; [reflexivity|]. destruct ds; simpl in H; [exact H|].
  apply andb_prop in H as [H _]. unfold is_digit.
  apply andb_prop in H as [H1 H2]. apply N.leb_le in H1, H2.
  apply andb_true_intro. split; apply N.leb_le; lia.
Qed.

Lemma digit_opens d : is_digit d = true -> opens d = true.
Proof.
  unfold is_digit, opens, is_ws. intros H. apply andb_prop in H as [H1 H2].
  apply N.leb_le in H1, H2.
  repeat (apply andb_true_intro; split); apply negb_true_iff;
    repeat (apply orb_false_iff; split); apply N.eqb_neq; lia.
Qed.

Lemma render_head m t :
  text_ok m t = true -> exists c r, render t = c :: r /\ opens c = true.
Proof.
  destruct t as [ | [|] | n | | [|] | items | ws elems | ws members ];
    intros H; try (do 2 eexists; split; [vm_compute; reflexivity | reflexivity]).
  - simpl in H. unfold number_ok in H.
    apply andb_prop in H as [H _]. apply andb_prop in H as [H _].
    apply andb_prop in H as [H _].
    destruct (integer_head _ H) as (d & ds & Hip & Hd).
    simpl. unfold render_number. rewrite Hip. destruct (negative n).
    + do 2 eexists. split; [reflexivity | reflexivity].
    + do 2 eexists. split; [reflexivity | apply digit_opens; exact Hd].
Qed.

Lemma opens_not_ws c : opens c = true -> is_ws c = false.
Proof.
  unfold opens. intros H. apply andb_prop in H as [H _].
  apply andb_prop in H as [H _]. apply andb_prop in H as [H _].
  apply negb_true_iff. exact H.
Qed.

(** Whitespace before a text is skipped up to the text. *)
Lemma skip_ws_render m w t s :
  all_ws w = true -> text_ok m t = true ->
  skip_ws (w ++ render t ++ s) = render t ++ s.
Proof.
  intros Hw Ht. rewrite (skip_ws_app w _ Hw).
  destruct (render_head m t Ht) as (c & r & -> & Hc).
  cbn [app]. apply skip_ws_stop. apply opens_not_ws. exact Hc.
Qed.

Lemma join_closing close x others rest :
  join [44%N] (x :: others) ++ close :: rest = x ++ closing close others rest.
Proof.
  destruct others as [|y others]; cbn [join closing].
  - reflexivity.
  - rewrite <- !app_assoc. reflexivity.
Qed.

Lemma follows_closing close post others rest :
  all_ws post = true -> (close = 93%N \/ close = 125%N) ->
  follows (post ++ closing close others rest) = true.
Proof.
  intros Hpost Hclose. destruct post as [|w post].
  - destruct others; cbn [app closing follows]; [|reflexivity].
    destruct Hclose as [-> | ->]; reflexivity.
  - simpl in Hpost. apply andb_prop in Hpost as [Hw _].
    cbn [app follows]. rewrite Hw. reflexivity.
Qed.

Lemma skip_ws_closing close post others rest :
  all_ws post = true -> (close = 93%N \/ close = 125%N) ->
  skip_ws (post ++ closing close others rest) = closing close others rest.
Proof.
  intros Hpost Hclose. rewrite (skip_ws_app post _ Hpost).
  destruct others; cbn [closing]; [|reflexivity].
  destruct Hclose as [-> | ->]; reflexivity.
Qed.

Section Loops.

Variable max_digits : nat.
Variable scan_value : str -> scan value.
Variable inner : text -> Prop.

Hypothesis inner_ok : forall v, inner v -> text_ok max_digits v = true.
Hypothesis scans_inner :
  forall v rest, inner v -> follows rest = true ->
                 scan_value (render v ++ rest) = Scanned (value_of v) rest.

Lemma elements_render others :
  forall pre v post k acc rest,
    good_element inner (pre, v, post) -> Forall (good_element inner) others ->
    (List.length others < k)%nat ->
    elements scan_value k
             (render v ++ post
                ++ closing 93%N (map render_element others) rest) acc
    = Scanned (VList (acc ++ value_of v :: map element_value others)) rest.
Proof.
  induction others as [|[[pre' v'] post'] others IH];
    intros pre v post k acc rest (Hpre & Hv & Hpost) Hothers Hk;
    (destruct k as [|k]; [simpl in Hk; lia|]); cbn [elements]; unfold bind.
  - rewrite (scans_inner v _ Hv (follows_closing 93%N post _ rest Hpost
                                                 (or_introl eq_refl))).
    rewrite (skip_ws_closing 93%N post _ rest Hpost (or_introl eq_refl)).
    reflexivity.
  - rewrite (scans_inner v _ Hv (follows_closing 93%N post _ rest Hpost
                                                 (or_introl eq_refl))).
    rewrite (skip_ws_closing 93%N post _ rest Hpost (or_introl eq_refl)).
    cbn [map closing]. change (44 =? 93)%N with false.
    change (44 =? 44)%N with true. cbv beta iota.
    rewrite join_closing. cbn [render_element].
    inversion Hothers as [|? ? Hel Hrest]; subst.
    pose proof Hel as (Hpre' & Hv' & Hpost').
    rewrite <- !app_assoc.
    rewrite (skip_ws_render max_digits pre' v' _ Hpre' (inner_ok v' Hv')).
    rewrite (IH pre' v' post' k (acc ++ [value_of v]) rest Hel Hrest
                ltac:(simpl in Hk; lia)).
    rewrite <- app_assoc. reflexivity.
Qed.

Lemma members_render others :
  forall pre key w1 w2 v post k acc rest,
    good_member inner (pre, key, w1, w2, v, post) ->
    Forall (good_member inner) others ->
    (List.length others < k)%nat ->
    members scan_value k
            (render_string key ++ w1 ++ [58%N] ++ w2 ++ render v ++ post
               ++ closing 125%N (map render_member others) rest) acc
    = Scanned (VDict (fold_left add_member
                                ((pre, key, w1, w2, v, post) :: others) acc))
              rest.
Proof.
  induction others as [|[[[[[pre' key'] w1'] w2'] v'] post'] others IH];
    intros pre key w1 w2 v post k acc rest
           (Hpre & Hkey & Hw1 & Hw2 & Hv & Hpost) Hothers Hk;
    (destruct k as [|k]; [simpl in Hk; lia|]).
  all: unfold render_string; cbn [app members].
  all: change (34 =? 34)%N with true; cbv beta iota.
  all: rewrite <- !app_assoc; cbn [app].
  all: unfold bind at 1; rewrite (scanstring_items _ key _ Hkey).
  all: rewrite (skip_ws_app w1 _ Hw1); cbn [skip_ws].
  all: change (is_ws 58%N) with false; change (58 =? 58)%N with true;
    cbv beta iota.
  all: rewrite (skip_ws_render max_digits w2 v _ Hw2 (inner_ok v Hv)).
  all: unfold bind.
  all: rewrite (scans_inner v _ Hv (follows_closing 125%N post _ rest Hpost
                                                    (or_intror eq_refl))).
  all: rewrite (skip_ws_closing 125%N post _ rest Hpost (or_intror eq_refl)).
  - reflexivity.
  - cbn [map closing]. change (44 =? 125)%N with false.
    change (44 =? 44)%N with true. cbv beta iota.
    rewrite join_closing. cbn [render_member].
    inversion Hothers as [|? ? Hmb Hrest]; subst.
    pose proof Hmb as (Hpre' & Hkey' & Hw1' & Hw2' & Hv' & Hpost').
    rewrite <- !app_assoc.
    rewrite (skip_ws_app pre' _ Hpre'). unfold render_string at 1.
    cbn [app skip_ws]. change (is_ws 34%N) with false. cbv beta iota.
    change (34%N :: (flat_map render_item key' ++ [34%N]) ++ w1' ++ [58%N]
              ++ w2' ++ render v' ++ post'
              ++ closing 125%N (map render_member others) rest)
      with (render_string key' ++ w1' ++ [58%N] ++ w2' ++ render v' ++ post'
              ++ closing 125%N (map render_member others) rest).
    rewrite (IH pre' key' w1' w2' v' post' k _ rest Hmb Hrest
                ltac:(simpl in Hk; lia)).
    reflexivity.
Qed.

End Loops.

Lemma scan_once_number m d n rest :
  number_ok m n = true ->
  scan_once m d (render_number n ++ rest)
  = match_number m (render_number n ++ rest).
Proof.
  intros Hok. unfold number_ok in Hok.
  apply andb_prop in Hok as [Hok _]. apply andb_prop in Hok as [Hok _].
  apply andb_prop in Hok as [Hip _].
  destruct (integer_head _ Hip) as (d0 & ds & Hds & Hd0).
  unfold render_number. rewrite Hds.
  unfold is_digit in Hd0. apply andb_prop in Hd0 as [H1 H2].
  apply N.leb_le in H1, H2.
  assert (Hne : forall k, (k < 48 \/ 57 < k)%N -> (d0 =? k)%N = false)
    by (intros k Hk; apply N.eqb_neq; lia).
  destruct (negative n); destruct d; cbn [app scan_once].
  1,2: change (45 =? 34)%N with false; change (45 =? 123)%N with false;
    change (45 =? 91)%N with false; change (45 =? 110)%N with false;
    change (45 =? 116)%N with false; change (45 =? 102)%N with false;
    change (45 =? 78)%N with false; change (45 =? 73)%N with false;
    change (45 =? 45)%N with true; cbv beta iota;
    unfold constant;
    change (u "-Infinity") with [45; 73; 110; 102; 105; 110; 105; 116; 121]%N;
    cbn [startswith]; change (45 =? 45)%N with true;
    replace (73 =? d0)%N with false
      by (symmetry; apply N.eqb_neq; lia);
    reflexivity.
  all: rewrite !Hne by lia; reflexivity.
Qed.

(** A scalar of the grammar is scanned whole, at any depth. *)
Lemma scan_once_scalar m d t rest :
  scalar t = true -> text_ok m t = true -> follows rest = true ->
  scan_once m d (render t ++ rest) = Scanned (value_of t) rest.
Proof.
  intros Hs Hok Hf.
  destruct t as [ | [|] | n | | [|] | items | ws elems | ws members ];
    try discriminate Hs.
  1-3,5-7: destruct d; vm_compute; reflexivity.
  - cbn [render value_of]. rewrite (scan_once_number m d n rest Hok).
    apply match_number_render; assumption.
  - cbn [render value_of text_ok] in *. unfold render_string.
    destruct d; cbn [app scan_once]; change (34 =? 34)%N with true;
      cbv beta iota; unfold bind; rewrite <- app_assoc; cbn [app];
      rewrite (scanstring_items _ items rest Hok); reflexivity.
Qed.

Lemma array_children m ws elems :
  text_ok m (TArray ws elems) = true ->
  all_ws ws = true /\ Forall (fun el => element_ok (text_ok m) el = true) elems.
Proof.
  cbn [text_ok]. intros H. apply andb_prop in H as [Hws H].
  split; [exact Hws|]. apply Forall_forall. intros el Hin.
  rewrite forallb_forall in H. exact (H el Hin).
Qed.

Lemma object_children m ws members :
  text_ok m (TObject ws members) = true ->
  all_ws ws = true
  /\ Forall (fun mb => member_ok (text_ok m) mb = true) members.
Proof.
  cbn [text_ok]. intros H. apply andb_prop in H as [Hws H].
  split; [exact Hws|]. apply Forall_forall. intros mb Hin.
  rewrite forallb_forall in H. exact (H mb Hin).
Qed.

Lemma array_depths ws elems d :
  (depth (TArray ws elems) <= S d)%nat ->
  Forall (fun el : element => let '(_, v, _) := el in (depth v <= d)%nat) elems.
Proof.
  cbn [depth]. intros H. apply le_S_n in H.
  induction elems as [|[[pre v] post] elems IH]; constructor.
  - cbn [fold_right] in H. lia.
  - apply IH. cbn [fold_right] in H. lia.
Qed.

Lemma object_depths ws members d :
  (depth (TObject ws members) <= S d)%nat ->
  Forall (fun mb : member => (depth (member_text mb) <= d)%nat) members.
Proof.
  cbn [depth]. intros H. apply le_S_n in H.
  induction members as [|[[[[[pre k] w1] w2] v] post] members IH]; constructor.
  - cbn [fold_right member_text] in *. lia.
  - apply IH. cbn [fold_right] in H. lia.
Qed.

Lemma closing_length close others rest :
  (List.length others <= List.length (closing close others rest))%nat.
Proof.
  destruct others as [|x others]; [simpl; lia|]. cbn [closing].
  cbn [List.length]. rewrite length_app.
  assert (H : forall l : list str,
             (List.length l <= S (List.length (join [44%N] l)))%nat).
  { induction l as [|y [|z l] IH]; cbn [join List.length] in *; try lia.
    rewrite !length_app. cbn [List.length] in *. lia. }
  specialize (H (x :: others)). cbn [List.length] in *. lia.
Qed.

Lemma parse_array_empty f ws rest :
  all_ws ws = true ->
  parse_array f (ws ++ 93%N :: rest) = Scanned (VList []) rest.
Proof.
  intros Hws. unfold parse_array. rewrite (skip_ws_app ws _ Hws).
  cbn [skip_ws]. change (is_ws 93%N) with false.
  change (93 =? 93)%N with true. reflexivity.
Qed.

Lemma parse_array_some f s s' :
  skip_ws s = s' ->
  match s' with [] => False | c :: _ => (c =? 93)%N = false end ->
  parse_array f s = elements f (S (List.length s)) s' [].
Proof.
  intros Hs Hc. unfold parse_array. rewrite Hs.
  destruct s' as [|c r]; [contradiction|]. rewrite Hc. reflexivity.
Qed.

Lemma parse_object_empty f ws rest :
  all_ws ws = true ->
  parse_object f (ws ++ 125%N :: rest) = Scanned (VDict []) rest.
Proof.
  intros Hws. unfold parse_object. rewrite (skip_ws_app ws _ Hws).
  cbn [skip_ws]. change (is_ws 125%N) with false.
  change (125 =? 125)%N with true. reflexivity.
Qed.

Lemma parse_object_some f s s' :
  skip_ws s = s' ->
  match s' with [] => False | c :: _ => (c =? 125)%N = false end ->
  parse_object f s = members f (S (List.length s)) s' [].
Proof.
  intros Hs Hc. unfold parse_object. rewrite Hs.
  destruct s' as [|c r]; [contradiction|]. rewrite Hc. reflexivity.
Qed.

Lemma render_array_some ws el others rest :
  render (TArray ws (el :: others)) ++ rest
  = 91%N :: render_element el
      ++ closing 93%N (map render_element others) rest.
Proof.
  cbn [render]. cbn [app]. f_equal. rewrite <- app_assoc. cbn [app].
  exact (join_closing 93%N (render_element el) (map render_element others)
                      rest).
Qed.

Lemma render_object_some ws mb others rest :
  render (TObject ws (mb :: others)) ++ rest
  = 123%N :: render_member mb
      ++ closing 125%N (map render_member others) rest.
Proof.
  cbn [render]. cbn [app]. f_equal. rewrite <- app_assoc. cbn [app].
  exact (join_closing 125%N (render_member mb) (map render_member others)
                      rest).
Qed.

(** The decoder accepts every text of the grammar that is nested no deeper
    than the interpreter allows, whatever follows it, and returns the
    value it denotes. *)
Theorem scan_once_render m d :
  forall t rest,
    text_ok m t = true -> (depth t <= d)%nat -> follows rest = true ->
    scan_once m d (render t ++ rest) = Scanned (value_of t) rest.
Proof.
  induction d as [|d IH]; intros t rest Hok Hd Hf.
  - destruct (scalar t) eqn:Hs; [apply scan_once_scalar; assumption|].
    destruct t; try discriminate Hs; cbn [depth] in Hd; lia.
  - destruct (scalar t) eqn:Hs; [apply scan_once_scalar; assumption|].
    set (inner := fun v => text_ok m v = true /\ (depth v <= d)%nat).
    assert (inner_ok : forall v, inner v -> text_ok m v = true)
      by (intros v [H _]; exact H).
    assert (scans_inner : forall v rest', inner v -> follows rest' = true ->
              scan_once m d (render v ++ rest') = Scanned (value_of v) rest')
      by (intros v rest' [H1 H2] H3; apply IH; assumption).
    destruct t as [ | | | | | | ws elems | ws members ]; try discriminate Hs.
    + destruct (array_children m ws elems Hok) as [Hws Helems].
      pose proof (array_depths ws elems d Hd) as Hdepths.
      assert (Hgood : Forall (good_element inner) elems).
      { rewrite Forall_forall in *. intros [[pre v] post] Hin.
        specialize (Helems _ Hin). specialize (Hdepths _ Hin).
        cbn in Helems. apply andb_prop in Helems as [Helems Hpost].
        apply andb_prop in Helems as [Hpre Hv].
        repeat split; assumption. }
      destruct elems as [|[[pre v] post] others].
      * cbn [render app scan_once]. change (91 =? 34)%N with false.
        change (91 =? 123)%N with false. change (91 =? 91)%N with true.
        cbv beta iota. rewrite <- app_assoc.
        exact (parse_array_empty _ ws rest Hws).
      * inversion Hgood as [|? ? Hel Hothers]; subst.
        pose proof Hel as (Hpre & Hv & Hpost).
        rewrite render_array_some. cbn [scan_once].
        change (91 =? 34)%N with false.
        change (91 =? 123)%N with false. change (91 =? 91)%N with true.
        cbv beta iota. cbn [render_element]. rewrite <- !app_assoc.
        rewrite (parse_array_some _ _ _
                   (skip_ws_render m pre v _ Hpre (inner_ok v Hv))).
        -- rewrite (elements_render m (scan_once m d) inner inner_ok
                      scans_inner others pre v post _ [] rest Hel Hothers).
           ++ reflexivity.
           ++ rewrite !length_app.
              pose proof (closing_length 93%N (map render_element others) rest)
                as Hlen.
              rewrite length_map in Hlen. lia.
        -- destruct (render_head m v (inner_ok v Hv)) as (c & r & -> & Hc).
           cbn [app]. unfold opens in Hc. apply andb_prop in Hc as [Hc _].
           apply andb_prop in Hc as [Hc _]. apply andb_prop in Hc as [_ Hc].
           apply negb_true_iff. exact Hc.
    + destruct (object_children m ws members Hok) as [Hws Hmembers].
      pose proof (object_depths ws members d Hd) as Hdepths.
      assert (Hgood : Forall (good_member inner) members).
      { rewrite Forall_forall in *.
        intros [[[[[pre k] w1] w2] v] post] Hin.
        specialize (Hmembers _ Hin). specialize (Hdepths _ Hin).
        cbn in Hmembers, Hdepths.
        repeat match goal with
               | H : (_ && _)%bool = true |- _ => apply andb_prop in H as [H ?]
               end.
        repeat split; assumption. }
      destruct members as [|[[[[[pre key] w1] w2] v] post] others].
      * cbn [render app scan_once]. change (123 =? 34)%N with false.
        change (123 =? 123)%N with true.
        cbv beta iota. rewrite <- app_assoc.
        exact (parse_object_empty _ ws rest Hws).
      * inversion Hgood as [|? ? Hmb Hothers]; subst.
        pose proof Hmb as (Hpre & Hkey & Hw1 & Hw2 & Hv & Hpost).
        rewrite render_object_some. cbn [scan_once].
        change (123 =? 34)%N with false. change (123 =? 123)%N with true.
        cbv beta iota. cbn [render_member]. rewrite <- !app_assoc.
        assert (Hskip : skip_ws (pre ++ render_string key ++ w1 ++ [58%N]
                                   ++ w2 ++ render v ++ post
                                   ++ closing 125%N (map render_member others)
                                        rest)
                        = render_string key ++ w1 ++ [58%N]
                            ++ w2 ++ render v ++ post
                            ++ closing 125%N (map render_member others) rest).
        { rewrite (skip_ws_app pre _ Hpre). reflexivity. }
        rewrite (parse_object_some _ _ _ Hskip); [|reflexivity].
        rewrite (members_render m (scan_once m d) inner inner_ok scans_inner
                                others pre key w1 w2 v post _ [] rest
                                Hmb Hothers).
        -- reflexivity.
        -- rewrite !length_app.
           pose proof (closing_length 125%N (map render_member others) rest)
             as Hlen.
           rewrite length_map in Hlen. lia.
Qed.

Lemma all_ws_follows w : all_ws w = true -> follows w = true.
Proof.
  destruct w as [|c w]; [reflexivity|]. simpl. intros H.
  apply andb_prop in H as [H _]. rewrite H. reflexivity.
Qed.

Lemma skip_ws_all w : all_ws w = true -> skip_ws w = [].
Proof.
  intros H. rewrite <- (app_nil_r w). rewrite (skip_ws_app w [] H). reflexivity.
Qed.

(** [json.loads] accepts every text of the grammar, with whitespace around
    it, and returns the value the text denotes. *)
Theorem loads_render m d w1 t w2 :
  all_ws w1 = true -> all_ws w2 = true ->
  text_ok m t = true -> (depth t <= d)%nat ->
  loads m d (w1 ++ render t ++ w2) = Return (value_of t).
Proof.
  intros Hw1 Hw2 Hok Hd. unfold loads.
  assert (Hbom : startswith [65279%N] (w1 ++ render t ++ w2) = false).
  { destruct w1 as [|c w1].
    - destruct (render_head m t Hok) as (c & r & -> & Hc). cbn [app startswith].
      unfold opens in Hc. apply andb_prop in Hc as [_ Hc].
      apply negb_true_iff in Hc. rewrite N.eqb_sym, Hc. reflexivity.
    - simpl in Hw1. apply andb_prop in Hw1 as [Hc _]. cbn [app startswith].
      unfold is_ws in Hc.
      replace (65279 =? c)%N with false; [reflexivity|].
      symmetry. apply N.eqb_neq. intros <-. discriminate Hc. }
  rewrite Hbom. rewrite (skip_ws_render m w1 t w2 Hw1 Hok).
  rewrite (scan_once_render m d t w2 Hok Hd (all_ws_follows w2 Hw2)).
  rewrite (skip_ws_all w2 Hw2). reflexivity.
Qed.

(** Induction on texts, through their elements and members. *)
Lemma text_induction (P : text -> Prop) :
  P TNull -> (forall b, P (TBool b)) -> (forall n, P (TNumber n)) ->
  P TNaN -> (forall neg, P (TInfinity neg)) ->
  (forall items, P (TString items)) ->
  (forall ws elems,
      Forall (fun el : element => let '(_, v, _) := el in P v) elems ->
      P (TArray ws elems)) ->
  (forall ws members,
      Forall (fun mb : member => P (member_text mb)) members ->
      P (TObject ws members)) ->
  forall t, P t.
Proof.
  intros Hnull Hbool Hnum Hnan Hinf Hstr Harr Hobj.
  fix self 1. intros t.
  destruct t as [ | b | n | | neg | items | ws elems | ws members ].
  - exact Hnull.
  - exact (Hbool b).
  - exact (Hnum n).
  - exact Hnan.
  - exact (Hinf neg).
  - exact (Hstr items).
  - apply Harr. induction elems as [|[[pre v] post] elems IH]; constructor.
    + apply self.
    + exact IH.
  - apply Hobj.
    induction members as [|[[[[[pre k] w1] w2] v] post] members IH];
      constructor.
    + apply self.
    + exact IH.
Qed.

(** *** Texts without their backticks *)

Lemma remove_char_app c a b :
  remove_char c (a ++ b) = remove_char c a ++ remove_char c b.
Proof. unfold remove_char. apply filter_app. Qed.

Lemma remove_char_tickless s : tickless s = true -> remove_char 96%N s = s.
Proof.
  unfold remove_char, tickless. induction s as [|c s IH]; [reflexivity|].
  simpl. intros H. apply andb_prop in H as [Hc Hs]. rewrite Hc, (IH Hs).
  reflexivity.
Qed.

Lemma tickless_app a b : tickless (a ++ b) = tickless a && tickless b.
Proof. unfold tickless. apply forallb_app. Qed.

Lemma all_ws_tickless w : all_ws w = true -> tickless w = true.
Proof.
  unfold all_ws, tickless. induction w as [|c w IH]; [reflexivity|].
  simpl. intros H. apply andb_prop in H as [Hc Hw]. rewrite (IH Hw).
  unfold is_ws in Hc. char_cases; reflexivity.
Qed.

Lemma digits_tickless ds : forallb is_digit ds = true -> tickless ds = true.
Proof.
  unfold tickless. induction ds as [|c ds IH]; [reflexivity|].
  simpl. intros H. apply andb_prop in H as [Hc Hds]. rewrite (IH Hds).
  unfold is_digit in Hc. apply andb_prop in Hc as [H1 H2].
  apply N.leb_le in H1, H2.
  replace (c =? 96)%N with false; [reflexivity|].
  symmetry. apply N.eqb_neq. lia.
Qed.

Lemma integer_digits ip : integer_ok ip = true -> forallb is_digit ip = true.
Proof.
  destruct ip as [|d [|d' ds]]; try discriminate; intros Hip.
  - simpl in *. rewrite Hip. reflexivity.
  - simpl in Hip. apply andb_prop in Hip as [Hd Hds].
    cbn [forallb]. cbn [forallb] in Hds. rewrite Hds.
    unfold is_digit. apply andb_prop in Hd as [H1 H2].
    apply N.leb_le in H1, H2.
    replace (48 <=? d)%N with true by (symmetry; apply N.leb_le; lia).
    replace (d <=? 57)%N with true by (symmetry; apply N.leb_le; lia).
    reflexivity.
Qed.

Lemma exponent_tickless ex :
  exponent_ok ex = true -> tickless (exponent_text ex) = true.
Proof.
  destruct ex as [[[e sg] ds]|]; [|reflexivity]. unfold exponent_text.
  unfold exponent_ok. intros Hex. apply andb_prop in Hex as [Hex Hds].
  apply andb_prop in Hex as [He Hsg].
  change (e :: sg ++ ds) with ([e] ++ sg ++ ds). rewrite !tickless_app.
  assert (H1 : tickless [e] = true) by (char_cases; reflexivity).
  assert (H2 : tickless sg = true).
  { destruct sg as [|g [|g' sg']]; try discriminate; [reflexivity|].
    char_cases; reflexivity. }
  assert (H3 : tickless ds = true).
  { destruct ds; [discriminate|]. apply digits_tickless. exact Hds. }
  rewrite H1, H2, H3. reflexivity.
Qed.

Lemma number_tickless m n :
  number_ok m n = true -> tickless (render_number n) = true.
Proof.
  unfold number_ok, render_number. destruct n as [neg ip fr ex].
  cbn [negative integer fraction exponent]. intros H.
  apply andb_prop in H as [H _]. apply andb_prop in H as [H Hex].
  apply andb_prop in H as [Hip Hfr].
  rewrite !tickless_app.
  rewrite (digits_tickless ip (integer_digits ip Hip)).
  rewrite (exponent_tickless ex Hex).
  assert (H1 : tickless (fraction_text fr) = true).
  { destruct fr as [|f fr]; [reflexivity|]. unfold fraction_text.
    apply digits_tickless in Hfr. unfold tickless in *. cbn [forallb] in *.
    exact Hfr. }
  rewrite H1. destruct neg; reflexivity.
Qed.

Lemma remove_char_join sep l :
  tickless sep = true ->
  remove_char 96%N (join sep l) = join sep (map (remove_char 96%N) l).
Proof.
  intros Hsep. induction l as [|x [|y l] IH]; try reflexivity.
  change (join sep (x :: y :: l)) with (x ++ sep ++ join sep (y :: l)).
  rewrite !remove_char_app, IH, (remove_char_tickless sep Hsep). reflexivity.
Qed.

(** A backtick is no hexadecimal digit. *)
Lemma hex_digit_no_tick c d : hex_digit c = Some d -> (c =? 96)%N = false.
Proof.
  intros H. destruct (c =? 96)%N eqn:E; [|reflexivity].
  apply N.eqb_eq in E. subst c. discriminate H.
Qed.

Lemma hex4_tickless h1 h2 h3 h4 c :
  hex4 h1 h2 h3 h4 = Some c ->
  remove_char 96%N [h1; h2; h3; h4] = [h1; h2; h3; h4].
Proof.
  unfold hex4. intros H.
  destruct (hex_digit h1) eqn:E1; [|discriminate H].
  destruct (hex_digit h2) eqn:E2; [|discriminate H].
  destruct (hex_digit h3) eqn:E3; [|discriminate H].
  destruct (hex_digit h4) eqn:E4; [|discriminate H].
  unfold remove_char. cbn [filter].
  rewrite (hex_digit_no_tick _ _ E1), (hex_digit_no_tick _ _ E2),
    (hex_digit_no_tick _ _ E3), (hex_digit_no_tick _ _ E4).
  reflexivity.
Qed.

Lemma items_strip items :
  forallb item_ok items = true ->
  remove_char 96%N (flat_map render_item items)
  = flat_map render_item (without_ticks items).
Proof.
  induction items as [|i items IH]; [reflexivity|].
  cbn [forallb flat_map]. intros H. apply andb_prop in H as [Hi Hitems].
  rewrite remove_char_app, (IH Hitems). unfold without_ticks.
  cbn [filter]. destruct i as [c | e | h1 h2 h3 h4]; cbn [is_tick render_item].
  - unfold remove_char. cbn [filter].
    destruct (c =? 96)%N; reflexivity.
  - cbn [negb]. cbn [flat_map render_item]. f_equal.
    unfold remove_char. cbn [filter]. change (92 =? 96)%N with false.
    cbn [negb].
    replace (e =? 96)%N with false; [reflexivity|].
    symmetry. apply N.eqb_neq. intros ->. discriminate Hi.
  - cbn [negb]. cbn [flat_map render_item]. f_equal.
    cbn [item_ok] in Hi.
    destruct (hex4 h1 h2 h3 h4) as [c|] eqn:Hh; [|discriminate Hi].
    change (remove_char 96%N [92; 117; h1; h2; h3; h4]%N)
      with (92%N :: 117%N :: remove_char 96%N [h1; h2; h3; h4]).
    rewrite (hex4_tickless _ _ _ _ _ Hh). reflexivity.
Qed.

Lemma string_strip items :
  forallb item_ok items = true ->
  remove_char 96%N (render_string items) = render_string (without_ticks items).
Proof.
  intros H. unfold render_string.
  change (34%N :: flat_map render_item items ++ [34%N])
    with ([34%N] ++ flat_map render_item items ++ [34%N]).
  rewrite !remove_char_app, (items_strip items H). reflexivity.
Qed.

Lemma body_strip {A : Type} (ws : str) (f : A -> str) (g : A -> A)
      (l : list A) :
  all_ws ws = true ->
  (forall x, In x l -> remove_char 96%N (f x) = f (g x)) ->
  remove_char 96%N match l with
                   | [] => ws
                   | _ :: _ => join [44%N] (map f l)
                   end
  = match map g l with
    | [] => ws
    | _ :: _ => join [44%N] (map f (map g l))
    end.
Proof.
  intros Hws Hf. destruct l as [|x l].
  - apply remove_char_tickless, all_ws_tickless. exact Hws.
  - change (match map g (x :: l) with
            | [] => ws
            | _ :: _ => join [44%N] (map f (map g (x :: l)))
            end) with (join [44%N] (map f (map g (x :: l)))).
    rewrite remove_char_join by reflexivity. f_equal.
    rewrite !map_map. apply map_ext_in. exact Hf.
Qed.

(** Deleting the backticks of a text gives the text of the grammar whose
    string literals have lost theirs. *)
Theorem render_strip_ticks m t :
  text_ok m t = true -> remove_char 96%N (render t) = render (strip_ticks t).
Proof.
  induction t as [ | b | n | | neg | items | ws elems IH | ws members IH ]
    using text_induction; intros Hok.
  - reflexivity.
  - destruct b; reflexivity.
  - cbn [render strip_ticks]. apply remove_char_tickless.
    exact (number_tickless m n Hok).
  - reflexivity.
  - destruct neg; reflexivity.
  - cbn [render strip_ticks]. apply string_strip. exact Hok.
  - destruct (array_children m ws elems Hok) as [Hws Helems].
    cbn [render strip_ticks].
    change (91%N :: ?x ++ [93%N]) with ([91%N] ++ x ++ [93%N]).
    rewrite !remove_char_app. f_equal. f_equal.
    apply body_strip; [exact Hws|].
    intros [[pre v] post] Hin. rewrite Forall_forall in IH, Helems.
    specialize (IH _ Hin). specialize (Helems _ Hin). cbn in IH, Helems.
    apply andb_prop in Helems as [Helems Hpost].
    apply andb_prop in Helems as [Hpre Hv].
    rewrite !remove_char_app, (IH Hv).
    rewrite (remove_char_tickless pre (all_ws_tickless pre Hpre)).
    rewrite (remove_char_tickless post (all_ws_tickless post Hpost)).
    reflexivity.
  - destruct (object_children m ws members Hok) as [Hws Hmembers].
    cbn [render strip_ticks].
    change (123%N :: ?x ++ [125%N]) with ([123%N] ++ x ++ [125%N]).
    rewrite !remove_char_app. f_equal. f_equal.
    apply body_strip; [exact Hws|].
    intros [[[[[pre k] w1] w2] v] post] Hin.
    rewrite Forall_forall in IH, Hmembers.
    specialize (IH _ Hin). specialize (Hmembers _ Hin).
    cbn [member_text] in IH. cbn [member_ok] in Hmembers.
    repeat match goal with
           | H : (_ && _)%bool = true |- _ => apply andb_prop in H as [H ?]
           end.
    rewrite !remove_char_app, (IH ltac:(assumption)).
    rewrite (string_strip k) by assumption.
    change (remove_char 96%N [58%N]) with [58%N].
    rewrite (remove_char_tickless pre), (remove_char_tickless w1),
      (remove_char_tickless w2), (remove_char_tickless post)
      by (apply all_ws_tickless; assumption).
    reflexivity.
Qed.

Lemma without_ticks_ok items :
  forallb item_ok items = true -> forallb item_ok (without_ticks items) = true.
Proof.
  intros H. apply forallb_forall. intros i Hin.
  apply filter_In in Hin as [Hin _].
  rewrite forallb_forall in H. exact (H i Hin).
Qed.

Theorem strip_ticks_ok m t :
  text_ok m t = true -> text_ok m (strip_ticks t) = true.
Proof.
  induction t as [ | b | n | | neg | items | ws elems IH | ws members IH ]
    using text_induction; intros Hok; try exact Hok.
  - cbn [strip_ticks text_ok] in *. apply without_ticks_ok. exact Hok.
  - destruct (array_children m ws elems Hok) as [Hws Helems].
    cbn [strip_ticks text_ok]. rewrite Hws. cbn [andb].
    apply forallb_forall. intros el Hin.
    apply in_map_iff in Hin as ([[pre v] post] & <- & Hin).
    rewrite Forall_forall in IH, Helems.
    specialize (IH _ Hin). specialize (Helems _ Hin).
    cbn [element_ok] in Helems. cbn beta iota in IH.
    apply andb_prop in Helems as [Helems Hpost].
    apply andb_prop in Helems as [Hpre Hv].
    rewrite Hpre, Hpost, (IH Hv). reflexivity.
  - destruct (object_children m ws members Hok) as [Hws Hmembers].
    cbn [strip_ticks text_ok]. rewrite Hws. cbn [andb].
    apply forallb_forall. intros mb Hin.
    apply in_map_iff in Hin as ([[[[[pre k] w1] w2] v] post] & <- & Hin).
    rewrite Forall_forall in IH, Hmembers.
    specialize (IH _ Hin). specialize (Hmembers _ Hin).
    cbn [member_ok] in Hmembers. cbn [member_text] in IH.
    apply andb_prop in Hmembers as [Hmembers Hpost].
    apply andb_prop in Hmembers as [Hmembers Hv].
    apply andb_prop in Hmembers as [Hmembers Hw2].
    apply andb_prop in Hmembers as [Hmembers Hw1].
    apply andb_prop in Hmembers as [Hpre Hk].
    rewrite Hpre, Hw1, Hw2, Hpost, (IH Hv), (without_ticks_ok k Hk).
    reflexivity.
Qed.

Theorem strip_ticks_depth t : depth (strip_ticks t) = depth t.
Proof.
  induction t as [ | b | n | | neg | items | ws elems IH | ws members IH ]
    using text_induction; try reflexivity.
  - cbn [strip_ticks depth]. f_equal.
    induction elems as [|[[pre v] post] elems IHl]; [reflexivity|].
    inversion IH as [|? ? Hv Hrest]; subst.
    cbn [map fold_right]. rewrite Hv, (IHl Hrest). reflexivity.
  - cbn [strip_ticks depth]. f_equal.
    induction members as [|[[[[[pre k] w1] w2] v] post] members IHl];
      [reflexivity|].
    inversion IH as [|? ? Hv Hrest]; subst. cbn [member_text] in Hv.
    cbn [map fold_right]. rewrite Hv, (IHl Hrest). reflexivity.
Qed.












(** A name without backticks is left as it is. *)
Lemma without_ticks_id items :
  forallb (fun i => negb (is_tick i)) items = true ->
  without_ticks items = items.
Proof.
  unfold without_ticks. induction items as [|i items IH]; [reflexivity|].
  cbn [forallb filter]. intros H. apply andb_prop in H as [Hi Hitems].
  rewrite Hi, (IH Hitems). reflexivity.
Qed.

(** *** Objects as dictionaries *)

Lemma str_eqb_eq a b : str_eqb a b = true <-> a = b.
Proof.
  unfold str_eqb. destruct (list_eq_dec N.eq_dec a b); split;
    auto; discriminate.
Qed.

(** Looking up after an assignment: the assigned key gives the new value,
    every other key what it gave before. *)
Lemma dict_lookup_setitem d k v name :
  dict_lookup (dict_setitem d k v) name
  = if str_eqb k name then Some v else dict_lookup d name.
Proof.
  induction d as [|[k' v'] d IH]; cbn [dict_setitem dict_lookup].
  - reflexivity.
  - destruct (str_eqb k' k) eqn:E; cbn [dict_lookup].
    + apply str_eqb_eq in E. subst k'. destruct (str_eqb k name); reflexivity.
    + rewrite IH. destruct (str_eqb k' name) eqn:E'; [|reflexivity].
      apply str_eqb_eq in E'. destruct (str_eqb k name) eqn:E''; [|reflexivity].
      apply str_eqb_eq in E''. subst. 
      assert (H : str_eqb name name = true) by (apply str_eqb_eq; reflexivity).
      rewrite H in E. discriminate E.
Qed.

Lemma lookup_members name members :
  forall acc,
    dict_lookup (fold_left add_member members acc) name
    = match find_member name members with
      | Some v => Some (value_of v)
      | None => dict_lookup acc name
      end.
Proof.
  induction members as [|[[[[[pre k] w1] w2] v] post] members IH]; intros acc.
  - reflexivity.
  - cbn [fold_left find_member]. rewrite IH.
    destruct (find_member name members); [reflexivity|].
    cbn [add_member member_key member_text]. rewrite dict_lookup_setitem.
    destruct (str_eqb (string_value k) name); reflexivity.
Qed.


Lemma find_member_strip name members :
  names_without_ticks members = true ->
  find_member name (map strip_member members)
  = option_map strip_ticks (find_member name members).
Proof.
  unfold names_without_ticks.
  induction members as [|[[[[[pre k] w1] w2] v] post] members IH];
    [reflexivity|].
  cbn [forallb map find_member]. intros H. apply andb_prop in H as [Hk Hms].
  rewrite (IH Hms). destruct (find_member name members); [reflexivity|].
  cbn [strip_member member_key member_text option_map] in *.
  rewrite (without_ticks_id k Hk).
  destruct (str_eqb (string_value k) name); reflexivity.
Qed.

(** *** [str.strip] around a text *)

Lemma is_ws_isspace c : is_ws c = true -> isspace c = true.
Proof. unfold is_ws. intros H. char_cases; reflexivity. Qed.

Lemma lstrip_app w s :
  forallb isspace w = true -> lstrip (w ++ s) = lstrip s.
Proof.
  induction w as [|c w IH]; [reflexivity|]. cbn [forallb app lstrip].
  intros H. apply andb_prop in H as [Hc Hw]. rewrite Hc. exact (IH Hw).
Qed.

Lemma all_ws_isspace w : all_ws w = true -> forallb isspace w = true.
Proof.
  unfold all_ws. rewrite !forallb_forall. intros H c Hin.
  apply is_ws_isspace. exact (H c Hin).
Qed.

(** Stripping a text that is wrapped in brackets, with whitespace around
    it, leaves the text. *)
Lemma strip_bracketed w1 w2 first body last :
  all_ws w1 = true -> all_ws w2 = true ->
  isspace first = false -> isspace last = false ->
  strip (w1 ++ (first :: body ++ [last]) ++ w2) = first :: body ++ [last].
Proof.
  intros Hw1 Hw2 Hfirst Hlast. unfold strip, rstrip.
  rewrite (lstrip_app w1 _ (all_ws_isspace w1 Hw1)).
  cbn [app lstrip]. rewrite Hfirst.
  change (first :: (body ++ [last]) ++ w2)
    with ((first :: body ++ [last]) ++ w2).
  rewrite rev_app_distr.
  assert (Hrev : forallb isspace (rev w2) = true).
  { apply forallb_forall. intros c Hin. apply in_rev in Hin.
    pose proof (all_ws_isspace w2 Hw2) as H.
    rewrite forallb_forall in H. exact (H c Hin). }
  rewrite (lstrip_app (rev w2) _ Hrev).
  change (first :: body ++ [last]) with ((first :: body) ++ [last]).
  rewrite rev_app_distr. cbn [rev app lstrip]. rewrite Hlast.
  cbn [rev]. rewrite rev_app_distr, rev_involutive. reflexivity.
Qed.

End JsonTextFacts.

(** ** The structure of an evaluation *)

Module Props.
Import Py PyVal Analyzer Spec.

Lemma page_cases (cr : Crawler.CrawlResult) : page_absent cr \/ page_present cr.
Proof.
  unfold page_absent, page_present.
  destruct (Crawler.html cr) as [[|c page]|]; eauto.
Qed.

Lemma example_gov_present : page_present example_gov.
Proof. unfold page_present. do 2 eexists. vm_compute. reflexivity. Qed.

Lemma example_unfetched_absent : page_absent example_unfetched.
Proof. left. reflexivity. Qed.

Lemma page_present_not_absent cr : page_present cr -> ~ page_absent cr.
Proof.
  intros (c & page & H) [H' | H']; rewrite H in H'; discriminate.
Qed.

Lemma analyze_absent rt cr w :
  page_absent cr -> analyze rt cr w = (Return (sentinel cr), w).
Proof.
  unfold analyze, page_absent. intros [H | H]; rewrite H; reflexivity.
Qed.

Ltac run_resolve := cbv beta iota zeta delta [resolve bind call_model lift ret].

(** The [try] block either reads both fields of a parsed object, or
    raises; a prompt is sent in both cases. *)
Lemma resolve_cases rt prompt w :
  (exists d, parses_as rt prompt d
             /\ resolve rt prompt w
                = (Return (field d (u "score") (VInt 100),
                           field d (u "notes") (VStr notes_no_reply)),
                   sent w prompt))
  \/ (exists e, fails_with rt prompt e
                /\ resolve rt prompt w = (Raise e, sent w prompt)).
Proof.
  unfold parses_as, fails_with.
  destruct (generate_content rt prompt) as [text|e] eqn:Hc.
  - destruct (Json.loads (int_max_str_digits rt) (recursion_depth rt)
                         (clean_response text)) as [data|e] eqn:Hl.
    + destruct (get data (u "score") (VInt 100)) as [sc|e] eqn:Hg.
      * left. destruct data; try discriminate.
        exists items. split; [eauto|].
        run_resolve. rewrite Hc. cbv beta iota. rewrite Hl. reflexivity.
      * right. exists e. split.
        -- right. exists text. split; [reflexivity|]. right. eauto.
        -- run_resolve. rewrite Hc. cbv beta iota. rewrite Hl.
           cbv beta iota. rewrite Hg. reflexivity.
    + right. exists e. split.
      * right. exists text. split; [reflexivity|]. left. exact Hl.
      * run_resolve. rewrite Hc. cbv beta iota. rewrite Hl. reflexivity.
  - right. exists e. split; [left; reflexivity|].
    run_resolve. rewrite Hc. reflexivity.
Qed.

(** A failed call or parse makes the [try] block raise, after the prompt
    was sent. *)
Lemma resolve_failed rt prompt w e :
  fails_with rt prompt e -> resolve rt prompt w = (Raise e, sent w prompt).
Proof.
  unfold fails_with.
  intros [Hc | (text & Hc & [Hl | (data & Hl & Hg)])]; run_resolve;
    rewrite Hc; cbv beta iota; try rewrite Hl; cbv beta iota;
    try rewrite Hg; reflexivity.
Qed.

(** A reply that parses as an object resolves to its two fields. *)
Lemma resolved_parsed rt cr prompt w d :
  parses_as rt prompt d ->
  resolved rt cr prompt w
  = (Return (field d (u "score") (VInt 100),
             field d (u "notes") (VStr notes_no_reply)), sent w prompt).
Proof.
  intros (text & Hc & Hl). unfold resolved, try_except.
  run_resolve. rewrite Hc. cbv beta iota. rewrite Hl. reflexivity.
Qed.

(** A failure that the [except] clause absorbs resolves to the fail-safe
    score and notes, and its line is printed. *)
Lemma resolved_failed rt cr prompt w e :
  fails_with rt prompt e ->
  absorbed rt cr e ->
  resolved rt cr prompt w
  = (Return (VInt 100, VStr (notes_failure_prefix ++ exn_str e)),
     printed (sent w prompt) (failure_line cr e)).
Proof.
  intros Hf [Hex Hpr]. unfold resolved, try_except.
  rewrite (resolve_failed rt prompt w e Hf), Hex.
  cbv beta iota zeta delta [on_error bind print ret printed].
  rewrite Hpr. reflexivity.
Qed.

(** An exception that is not an instance of [Exception] is not taken by
    the [except] clause. *)
Lemma resolved_uncaught rt cr prompt w e :
  fails_with rt prompt e ->
  is_exception e = false ->
  resolved rt cr prompt w = (Raise e, sent w prompt).
Proof.
  intros Hf Hex. unfold resolved, try_except.
  rewrite (resolve_failed rt prompt w e Hf), Hex. reflexivity.
Qed.

(** When the line cannot be printed, the exception of [print] leaves the
    [except] clause. *)
Lemma resolved_print_raises rt cr prompt w e e' :
  fails_with rt prompt e ->
  is_exception e = true ->
  print_raises rt (failure_line cr e) = Some e' ->
  resolved rt cr prompt w = (Raise e', sent w prompt).
Proof.
  intros Hf Hex Hpr. unfold resolved, try_except.
  rewrite (resolve_failed rt prompt w e Hf), Hex.
  cbv beta iota zeta delta [on_error bind print ret].
  rewrite Hpr. reflexivity.
Qed.

(** The four ways the [try] statement ends. *)
Lemma try_cases rt cr prompt w :
  (exists d, parses_as rt prompt d
             /\ resolved rt cr prompt w
                = (Return (field d (u "score") (VInt 100),
                           field d (u "notes") (VStr notes_no_reply)),
                   sent w prompt))
  \/ (exists e, fails_with rt prompt e /\ absorbed rt cr e
                /\ resolved rt cr prompt w
                   = (Return (VInt 100, VStr (notes_failure_prefix ++ exn_str e)),
                      printed (sent w prompt) (failure_line cr e)))
  \/ (exists e, fails_with rt prompt e /\ is_exception e = false
                /\ resolved rt cr prompt w = (Raise e, sent w prompt))
  \/ (exists e e', fails_with rt prompt e /\ is_exception e = true
                   /\ print_raises rt (failure_line cr e) = Some e'
                   /\ resolved rt cr prompt w = (Raise e', sent w prompt)).
Proof.
  destruct (resolve_cases rt prompt w) as [(d & Hp & _) | (e & Hf & _)].
  - left. exists d. split; [exact Hp|]. apply resolved_parsed. exact Hp.
  - right. destruct (is_exception e) eqn:Hex.
    + destruct (print_raises rt (failure_line cr e)) as [e'|] eqn:Hpr.
      * right; right. exists e, e'. repeat split; auto.
        apply (resolved_print_raises rt cr prompt w e e'); assumption.
      * left. exists e. split; [exact Hf|]. split; [split; assumption|].
        apply resolved_failed; [exact Hf | split; assumption].
    + right; left. exists e. repeat split; auto.
      apply resolved_uncaught; assumption.
Qed.

(** With a page, [analyze] is the [try] statement followed by the status
    chain. *)
Lemma analyze_present rt cr w :
  page_present cr ->
  analyze rt cr w
  = match resolved rt cr (prompt_of rt cr) w with
    | (Return (sc, nt), w') =>
      match status_of rt sc with
      | Return st => (Return (verdict cr st sc nt), w')
      | Raise e => (Raise e, w')
      end
    | (Raise e, w') => (Raise e, w')
    end.
Proof.
  intros (c & page & H). unfold analyze, prompt_of, resolved, verdict.
  rewrite H. unfold bind at 1.
  destruct (try_except _ _ w) as [[[sc nt]|e] w']; [|reflexivity].
  unfold bind, lift, ret. destruct (status_of rt sc); reflexivity.
Qed.

(** When the [try] statement ends without an exception, it ends in one of
    the two ways of [resolution]. *)
Lemma resolved_returns rt cr w sc nt w' :
  resolved rt cr (prompt_of rt cr) w = (Return (sc, nt), w') ->
  resolution rt cr w sc nt w'.
Proof.
  intros Hr.
  destruct (try_cases rt cr (prompt_of rt cr) w)
    as [(d & Hp & Hr') | [(e & Hf & Ha & Hr') | [(e & _ & _ & Hr')
                                                | (e & e' & _ & _ & _ & Hr')]]];
    rewrite Hr' in Hr; try discriminate Hr.
  - injection Hr as <- <- <-. constructor. exact Hp.
  - injection Hr as <- <- <-. constructor; assumption.
Qed.

(** A verdict returned for a page is assembled from the resolution and
    from the status the chain gives its score. *)
Lemma analyze_returns rt cr w r :
  page_present cr ->
  fst (analyze rt cr w) = Return r ->
  exists sc nt w',
    resolution rt cr w sc nt w'
    /\ status_of rt sc = Return (status r)
    /\ r = verdict cr (status r) sc nt
    /\ snd (analyze rt cr w) = w'.
Proof.
  intros Hp. rewrite (analyze_present rt cr w Hp).
  destruct (resolved rt cr (prompt_of rt cr) w) as [[[sc nt]|e] w'] eqn:Hr;
    [|discriminate].
  pose proof (resolved_returns rt cr w sc nt w' Hr) as Hres.
  destruct (status_of rt sc) as [st|e] eqn:Hst; simpl.
  - intros [= <-]. exists sc, nt, w'. simpl. repeat split; auto.
  - discriminate.
Qed.

(** With a page, exactly one prompt is sent, whatever the reply. *)
Lemma analyze_requests rt cr w :
  page_present cr ->
  requests (snd (analyze rt cr w)) = requests w ++ [prompt_of rt cr].
Proof.
  intros Hp. rewrite (analyze_present rt cr w Hp).
  destruct (try_cases rt cr (prompt_of rt cr) w)
    as [(d & _ & Hr) | [(e & _ & _ & Hr) | [(e & _ & _ & Hr)
                                           | (e & e' & _ & _ & _ & Hr)]]];
    rewrite Hr; try reflexivity.
  - destruct (status_of rt _); reflexivity.
Qed.



(** The prompt reads the page through its first 2000 characters only. *)
Lemma build_prompt_truncates today cr page page' :
  firstn 2000 page' = firstn 2000 page ->
  build_prompt today cr page' = build_prompt today cr page.
Proof. intros H. unfold build_prompt. rewrite H. reflexivity. Qed.

(** Cleaning leaves no backtick in the reply. *)
Lemma clean_response_tickless text : ~ In 96%N (clean_response text).
Proof.
  assert (H : ~ In 96%N (remove_char 96%N (strip text))).
  { unfold remove_char. intros Hin. apply filter_In in Hin as [_ Hin].
    discriminate Hin. }
  unfold clean_response. destruct (startswith _ _); [|exact H].
  intros Hin. apply H.
  rewrite <- (firstn_skipn 4 (remove_char 96%N (strip text))).
  apply in_or_app. right. exact Hin.
Qed.

(** Cleaning a reply that is the text of an object, with whitespace
    around it, gives the text of the object without its backticks. *)
Lemma clean_response_object m ws members w1 w2 :
  JsonText.all_ws w1 = true -> JsonText.all_ws w2 = true ->
  JsonText.text_ok m (JsonText.TObject ws members) = true ->
  clean_response (w1 ++ JsonText.render (JsonText.TObject ws members) ++ w2)
  = JsonText.render (JsonText.strip_ticks (JsonText.TObject ws members)).
Proof.
  intros Hw1 Hw2 Hok. unfold clean_response.
  assert (Hstrip : strip (w1 ++ JsonText.render (JsonText.TObject ws members)
                             ++ w2)
                   = JsonText.render (JsonText.TObject ws members)).
  { cbn [JsonText.render].
    apply JsonTextFacts.strip_bracketed; auto. }
  rewrite Hstrip. rewrite (JsonTextFacts.render_strip_ticks m _ Hok).
  cbn [JsonText.strip_ticks JsonText.render].
  change (u "json") with [106; 115; 111; 110]%N. cbn [startswith].
  change (106 =? 123)%N with false. reflexivity.
Qed.

(** The chain raises exactly on the values that have no order with an
    integer. *)
Lemma status_of_raises rt v e :
  status_of rt v = Raise e <-> non_numeric v /\ e = comparison_error v.
Proof.
  unfold status_of, comparison_error.
  destruct v; cbn [lt_int non_numeric].
  all: try (split; [intros [= <-]; split; [exact I | reflexivity]
                   | intros [_ ->]; reflexivity]).
  all: split; [|intros [[] _]].
  all: repeat match goal with
              | |- context [if ?b then _ else _] => destruct b
              end; discriminate.
Qed.

(** Stripping a text that neither starts nor ends with whitespace. *)
Lemma strip_tight first body last :
  isspace first = false -> isspace last = false ->
  strip (first :: body ++ [last]) = first :: body ++ [last].
Proof.
  intros Hf Hl.
  pose proof (JsonTextFacts.strip_bracketed [] [] first body last
                eq_refl eq_refl Hf Hl) as H.
  cbn [app] in H. rewrite app_nil_r in H. exact H.
Qed.

(** Cleaning a fenced object gives the object's text without its
    backticks, between the whitespace that stood inside the fence. *)
Lemma clean_response_fenced m ws members tag w1 w2 :
  tag = [] \/ tag = u "json" ->
  JsonText.all_ws w1 = true -> JsonText.all_ws w2 = true ->
  JsonText.text_ok m (JsonText.TObject ws members) = true ->
  clean_response
    (fenced tag w1 (JsonText.render (JsonText.TObject ws members)) w2)
  = w1 ++ JsonText.render (JsonText.strip_ticks (JsonText.TObject ws members))
       ++ w2.
Proof.
  intros Htag Hw1 Hw2 Hok. unfold clean_response, fenced.
  set (x := JsonText.render (JsonText.TObject ws members)).
  assert (Hstrip : strip (fence ++ tag ++ w1 ++ x ++ w2 ++ fence)
                   = fence ++ tag ++ w1 ++ x ++ w2 ++ fence).
  { replace (fence ++ tag ++ w1 ++ x ++ w2 ++ fence)
      with (96%N :: ([96; 96]%N ++ tag ++ w1 ++ x ++ w2 ++ [96; 96]%N)
                ++ [96%N])
      by (unfold fence; cbn [app]; rewrite <- !app_assoc; reflexivity).
    apply strip_tight; reflexivity. }
  rewrite Hstrip. rewrite !JsonTextFacts.remove_char_app.
  change (remove_char 96%N fence) with (@nil char).
  rewrite (JsonTextFacts.remove_char_tickless w1
             (JsonTextFacts.all_ws_tickless w1 Hw1)).
  rewrite (JsonTextFacts.remove_char_tickless w2
             (JsonTextFacts.all_ws_tickless w2 Hw2)).
  unfold x. rewrite (JsonTextFacts.render_strip_ticks m _ Hok).
  rewrite app_nil_r. cbn [app].
  destruct Htag as [-> | ->].
  - cbn [remove_char filter app].
    assert (Hs : startswith (u "json")
                   (w1 ++ JsonText.render
                      (JsonText.strip_ticks (JsonText.TObject ws members))
                      ++ w2) = false).
    { change (u "json") with [106; 115; 111; 110]%N.
      destruct w1 as [|c w1].
      - cbn [JsonText.strip_ticks JsonText.render app startswith].
        reflexivity.
      - cbn [app startswith]. simpl in Hw1.
        apply andb_prop in Hw1 as [Hc _]. unfold Json.is_ws in Hc.
        replace (106 =? c)%N with false; [reflexivity|].
        symmetry. apply N.eqb_neq. intros <-. discriminate Hc. }
    rewrite Hs. reflexivity.
  - change (remove_char 96%N (u "json")) with [106; 115; 111; 110]%N.
    change (u "json") with [106; 115; 111; 110]%N. reflexivity.
Qed.

Lemma lstrip_length s : (List.length (lstrip s) <= List.length s)%nat.
Proof.
  induction s as [|c s IH]; [simpl; lia|]. cbn [lstrip].
  destruct (isspace c); simpl; lia.
Qed.

Lemma strip_length s : (List.length (strip s) <= List.length s)%nat.
Proof.
  unfold strip, rstrip. rewrite length_rev.
  pose proof (lstrip_length (rev (lstrip s))) as H1.
  rewrite length_rev in H1. pose proof (lstrip_length s). lia.
Qed.

Lemma clean_response_length text :
  (List.length (clean_response text) <= List.length text)%nat.
Proof.
  assert (H : (List.length (remove_char 96%N (strip text))
               <= List.length text)%nat).
  { unfold remove_char. etransitivity; [apply filter_length_le|].
    apply strip_length. }
  unfold clean_response. destruct (startswith _ _); [|exact H].
  rewrite length_skipn. lia.
Qed.

(** A reply that is the text of an object parses as the object without
    the backticks of its text. *)
Lemma object_reply_parses rt prompt ws members w1 w2 :
  generate_content rt prompt
  = Return (w1 ++ JsonText.render (JsonText.TObject ws members) ++ w2) ->
  JsonText.all_ws w1 = true -> JsonText.all_ws w2 = true ->
  JsonText.text_ok (int_max_str_digits rt) (JsonText.TObject ws members)
  = true ->
  (JsonText.depth (JsonText.TObject ws members) <= recursion_depth rt)%nat ->
  parses_as rt prompt
            (fold_left JsonText.add_member
                       (map JsonText.strip_member members) []).
Proof.
  intros Hc Hw1 Hw2 Hok Hd. eexists. split; [exact Hc|].
  rewrite (clean_response_object _ ws members w1 w2 Hw1 Hw2 Hok).
  rewrite <- (app_nil_r (JsonText.render _)).
  assert (Hd' : (JsonText.depth
                   (JsonText.strip_ticks (JsonText.TObject ws members))
                 <= recursion_depth rt)%nat)
    by (rewrite JsonTextFacts.strip_ticks_depth; exact Hd).
  exact (JsonTextFacts.loads_render _ _ [] _ [] eq_refl eq_refl
           (JsonTextFacts.strip_ticks_ok _ _ Hok) Hd').
Qed.

(** A field of such an object is the value of the last member so named. *)
Lemma object_field members name default :
  JsonText.names_without_ticks members = true ->
  field (fold_left JsonText.add_member (map JsonText.strip_member members) [])
        name default
  = match JsonText.find_member name members with
    | Some v => JsonText.value_of (JsonText.strip_ticks v)
    | None => default
    end.
Proof.
  intros Hn. unfold field. rewrite JsonTextFacts.lookup_members.
  rewrite (JsonTextFacts.find_member_strip _ _ Hn).
  destruct (JsonText.find_member name members); reflexivity.
Qed.

(** The chain gives one of the three rubric statuses. *)
Lemma status_of_rubric rt sc st :
  status_of rt sc = Return st -> rubric_status st.
Proof.
  unfold status_of, rubric_status.
  destruct (lt_int rt sc 50) as [[|]|]; try discriminate.
  - intros [= <-]; auto.
  - destruct (lt_int rt sc 80) as [[|]|]; try discriminate;
      intros [= <-]; auto.
Qed.

(** A float score under the default runtime: 49.5 is below 50. *)
Lemma float_score_example :
  fst (analyze (stub (Return (reply_scored (u "49.5")))) example_gov w0)
  = Return (verdict example_gov status_normal (VFloat (u "49.5"))
                    (VStr (u "x"))).
Proof. vm_compute. reflexivity. Qed.

Lemma status_of_int rt n :
  status_of rt (VInt n)
  = Return (if n <? 50 then status_normal
            else if n <? 80 then status_suspect else status_outdated).
Proof.
  unfold status_of, lt_int.
  destruct (n <? 50); [reflexivity|]. destruct (n <? 80); reflexivity.
Qed.

End Props.

(** * The claims *)

Module Claims.
Import Py PyVal Analyzer Spec Props.

(** ** C7 *)

(** C7. Whenever the [try] statement leaves an integer [n] in [score]
    (the reply's score, the default for a reply without one, or the 100 of
    the fail-safe path), [analyze] returns the verdict with that score and
    with the status the fixed thresholds give it: Normal below 50, Suspect
    from 50 to 79, Outdated from 80 on.  In particular 49 gives Normal, 50
    and 79 give Suspect and 80 gives Outdated, and the three labels are
    distinct. *)
Theorem C7_status_thresholds rt cr w n nt w' :
  page_present cr ->
  resolved rt cr (prompt_of rt cr) w = (Return (VInt n, nt), w') ->
  exists st,
    analyze rt cr w = (Return (verdict cr st (VInt n) nt), w')
    /\ by_thresholds n st
    /\ (n = 49 -> st = status_normal)
    /\ (n = 50 -> st = status_suspect)
    /\ (n = 79 -> st = status_suspect)
    /\ (n = 80 -> st = status_outdated)
    /\ (status_normal <> status_suspect
        /\ status_suspect <> status_outdated
        /\ status_normal <> status_outdated).
Proof.
  intros Hp Hr.
  exists (if n <? 50 then status_normal
          else if n <? 80 then status_suspect else status_outdated).
  split.
  { rewrite (analyze_present rt cr w Hp), Hr, status_of_int. reflexivity. }
  split.
  { unfold by_thresholds.
    destruct (n <? 50) eqn:E50; [|destruct (n <? 80) eqn:E80].
    - left. split; [lia|reflexivity].
    - right; left. split; [lia|reflexivity].
    - right; right. split; [lia|reflexivity]. }
  split; [intros ->; reflexivity|]. split; [intros ->; reflexivity|].
  split; [intros ->; reflexivity|]. split; [intros ->; reflexivity|].
  repeat split; discriminate.
Qed.

Lemma C7_witness :
  let run (numeral : str) :=
    analyze (stub (Return (reply_scored numeral))) example_gov w0 in
  let expect (n : Z) (st : str) :=
    (Return (verdict example_gov st (VInt n) (VStr (u "x"))),
     sent w0 (prompt_of (stub (Return reply_85)) example_gov)) in
  run (u "49") = expect 49 status_normal
  /\ run (u "50") = expect 50 status_suspect
  /\ run (u "79") = expect 79 status_suspect
  /\ run (u "80") = expect 80 status_outdated.
Proof.
  cbv zeta. pose proof example_gov_present as Hp.
  split; [|split; [|split]].
  - destruct (C7_status_thresholds
                (stub (Return (reply_scored (u "49")))) example_gov w0
                49 (VStr (u "x"))
                (sent w0 (prompt_of (stub (Return reply_85)) example_gov))
                Hp ltac:(vm_compute; reflexivity))
      as (st & Ha & _ & H & _).
    rewrite Ha, (H eq_refl). reflexivity.
  - destruct (C7_status_thresholds
                (stub (Return (reply_scored (u "50")))) example_gov w0
                50 (VStr (u "x"))
                (sent w0 (prompt_of (stub (Return reply_85)) example_gov))
                Hp ltac:(vm_compute; reflexivity))
      as (st & Ha & _ & _ & H & _).
    rewrite Ha, (H eq_refl). reflexivity.
  - destruct (C7_status_thresholds
                (stub (Return (reply_scored (u "79")))) example_gov w0
                79 (VStr (u "x"))
                (sent w0 (prompt_of (stub (Return reply_85)) example_gov))
                Hp ltac:(vm_compute; reflexivity))
      as (st & Ha & _ & _ & _ & H & _).
    rewrite Ha, (H eq_refl). reflexivity.
  - destruct (C7_status_thresholds
                (stub (Return (reply_scored (u "80")))) example_gov w0
                80 (VStr (u "x"))
                (sent w0 (prompt_of (stub (Return reply_85)) example_gov))
                Hp ltac:(vm_compute; reflexivity))
      as (st & Ha & _ & _ & _ & _ & H & _).
    rewrite Ha, (H eq_refl). reflexivity.
Defined.

(** ** C1 *)

(** C1, counterexample.  The reply [{"score": 150, "notes": "x"}] for the
    page of the end-to-end scenario: the verdict's score is 150, out of
    the range 0..100; nothing clamps it. *)
Lemma C1_score_150_not_clamped :
  exists r,
    fst (analyze (stub (Return reply_150)) example_gov w0) = Return r
    /\ score r = VInt 150
    /\ ~ score_in_range (score r).
Proof.
  eexists. split; [vm_compute; reflexivity|]. split; [reflexivity|].
  intros (n & Hn & Hr). simpl in Hn. injection Hn as <-. lia.
Qed.

(** C1, amended.  The score of a returned verdict is 100 when there is no
    page and when the call or the parse fails; otherwise it is the [score]
    field of the reply object as parsed, with 100 when the object has no
    such field.  It is not clamped: it lies in 0..100 whenever the reply's
    field is an integer of that range (or absent), and only then. *)
Theorem C1_score_resolution rt cr w r :
  fst (analyze rt cr w) = Return r ->
  (page_absent cr /\ score r = VInt 100)
  \/ (page_present cr
      /\ exists e, fails_with rt (prompt_of rt cr) e /\ score r = VInt 100)
  \/ (page_present cr
      /\ exists d, parses_as rt (prompt_of rt cr) d
                   /\ score r = field d (u "score") (VInt 100)
                   /\ (dict_lookup d (u "score") = None -> score r = VInt 100)
                   /\ (forall v, dict_lookup d (u "score") = Some v ->
                                 score r = v)).
Proof.
  intros Hr. destruct (page_cases cr) as [Ha | Hp].
  - left. split; [exact Ha|].
    rewrite (analyze_absent rt cr w Ha) in Hr. injection Hr as <-. reflexivity.
  - right.
    destruct (analyze_returns rt cr w r Hp Hr)
      as (sc & nt & w' & Hres & _ & Hv & _).
    assert (Hsc : score r = sc) by (rewrite Hv; reflexivity).
    destruct Hres as [d Hd | e He].
    + right. split; [exact Hp|]. exists d. split; [exact Hd|].
      split; [exact Hsc|]. rewrite Hsc. unfold field.
      split; [intros ->; reflexivity | intros v ->; reflexivity].
    + left. split; [exact Hp|]. exists e. split; [exact He | exact Hsc].
Qed.

Lemma C1_witness :
  fst (analyze (stub (Return reply_85)) example_gov w0) = Return verdict_85
  /\ ((page_absent example_gov /\ score verdict_85 = VInt 100)
      \/ (page_present example_gov
          /\ exists e, fails_with (stub (Return reply_85))
                                  (prompt_of (stub (Return reply_85)) example_gov) e
                       /\ score verdict_85 = VInt 100)
      \/ (page_present example_gov
          /\ exists d, parses_as (stub (Return reply_85))
                                 (prompt_of (stub (Return reply_85)) example_gov) d
                       /\ score verdict_85 = field d (u "score") (VInt 100)
                       /\ (dict_lookup d (u "score") = None ->
                           score verdict_85 = VInt 100)
                       /\ (forall v, dict_lookup d (u "score") = Some v ->
                                     score verdict_85 = v))).
Proof.
  assert (Hr : fst (analyze (stub (Return reply_85)) example_gov w0)
               = Return verdict_85) by (vm_compute; reflexivity).
  split; [exact Hr|].
  exact (C1_score_resolution (stub (Return reply_85)) example_gov w0
                             verdict_85 Hr).
Defined.

(** ** C2 *)

(** C2, counterexample.  The verdict for an unfetched page and the verdict
    for a page whose reply scores 100 have the same score and different
    statuses; the former's status is none of Normal, Suspect, Outdated. *)
Lemma C2_sentinel_status_differs :
  exists r1 r2,
    fst (analyze (stub (Return reply_100)) example_gov w0) = Return r1
    /\ fst (analyze (stub (Return reply_100)) example_unfetched w0) = Return r2
    /\ score r1 = VInt 100 /\ score r2 = VInt 100
    /\ status r1 <> status r2
    /\ ~ rubric_status (status r2).
Proof.
  do 2 eexists.
  split; [vm_compute; reflexivity|]. split; [vm_compute; reflexivity|].
  split; [reflexivity|]. split; [reflexivity|].
  split; [vm_compute; discriminate|].
  unfold rubric_status. vm_compute. intros [H | [H | H]]; discriminate.
Qed.

(** C2, amended.  The status of a returned verdict is one of four labels.
    For a page it is one of Normal, Suspect, Outdated and is the value of
    the threshold chain at the verdict's score, so two such verdicts with
    the same score have the same status.  Without a page it is the
    separate Error label, whatever the score. *)
Theorem C2_status_from_score rt cr w r :
  fst (analyze rt cr w) = Return r ->
  (page_absent cr /\ status r = status_error)
  \/ (page_present cr
      /\ rubric_status (status r)
      /\ status_of rt (score r) = Return (status r)).
Proof.
  intros Hr. destruct (page_cases cr) as [Ha | Hp].
  - left. split; [exact Ha|].
    rewrite (analyze_absent rt cr w Ha) in Hr. injection Hr as <-. reflexivity.
  - right. split; [exact Hp|].
    destruct (analyze_returns rt cr w r Hp Hr)
      as (sc & nt & w' & _ & Hst & Hv & _).
    assert (Hsc : score r = sc) by (rewrite Hv; reflexivity).
    rewrite Hsc. split; [exact (status_of_rubric rt sc _ Hst) | exact Hst].
Qed.

Lemma C2_witness :
  fst (analyze (stub (Return reply_85)) example_gov w0) = Return verdict_85
  /\ ((page_absent example_gov /\ status verdict_85 = status_error)
      \/ (page_present example_gov
          /\ rubric_status (status verdict_85)
          /\ status_of (stub (Return reply_85)) (score verdict_85)
             = Return (status verdict_85))).
Proof.
  assert (Hr : fst (analyze (stub (Return reply_85)) example_gov w0)
               = Return verdict_85) by (vm_compute; reflexivity).
  split; [exact Hr|].
  exact (C2_status_from_score (stub (Return reply_85)) example_gov w0
                              verdict_85 Hr).
Defined.

(** ** C3 *)

(** C3: the failing input.  The reply [{"score": "high", "notes": "x"}] is
    a JSON object; the comparison [score < 50] stands after the [try]
    statement, and its [TypeError] escapes [analyze]. *)
Theorem C3_type_error_escapes :
  page_present example_gov
  /\ analyze (stub (Return reply_high)) example_gov w0
     = (Raise (TypeError
                 (u "'<' not supported between instances of 'str' and 'int'")),
        sent w0 (prompt_of (stub (Return reply_high)) example_gov)).
Proof.
  split; [exact example_gov_present|]. vm_compute. reflexivity.
Qed.

(** ** C4 *)

(** C4. Without a page (html [None] or empty) the evaluation returns at
    once: whatever the runtime, the world is unchanged (no prompt is sent,
    nothing is printed) and the verdict is the sentinel, with score 100,
    the notes that say the page could not be fetched, and the error
    status, which bears the cross mark of the Outdated label and is
    neither Normal nor Suspect. *)
Theorem C4_no_page_short_circuit rt cr w :
  page_absent cr ->
  analyze rt cr w = (Return (sentinel cr), w)
  /\ requests (snd (analyze rt cr w)) = requests w
  /\ score (sentinel cr) = VInt 100
  /\ notes (sentinel cr) = VStr (u "無法抓取網頁內容")
  /\ status (sentinel cr) = u "❌ 錯誤"
  /\ firstn 1 (status (sentinel cr)) = firstn 1 status_outdated
  /\ status (sentinel cr) <> status_normal
  /\ status (sentinel cr) <> status_suspect.
Proof.
  intros Ha. rewrite (analyze_absent rt cr w Ha).
  repeat split; try reflexivity; simpl; vm_compute; discriminate.
Qed.

Lemma C4_witness :
  page_absent example_unfetched
  /\ analyze (stub (Return reply_85)) example_unfetched w0
     = (Return (sentinel example_unfetched), w0).
Proof.
  split; [exact example_unfetched_absent|].
  exact (proj1 (C4_no_page_short_circuit (stub (Return reply_85))
                  example_unfetched w0 example_unfetched_absent)).
Defined.

(** ** C6 *)

(** C6, counterexample.  The unfetched page of the scenario carries
    [last_updated = "2019-01-01"]; the verdict's [last_updated] is the
    empty string. *)
Lemma C6_sentinel_drops_last_updated :
  exists r,
    fst (analyze (stub (Return reply_85)) example_unfetched w0) = Return r
    /\ Crawler.last_updated example_unfetched = Some (u "2019-01-01")
    /\ last_updated r = Some []
    /\ last_updated r <> Crawler.last_updated example_unfetched.
Proof.
  eexists. split; [vm_compute; reflexivity|].
  split; [reflexivity|]. split; [reflexivity|]. vm_compute. discriminate.
Qed.

(** C6, amended.  The [url] of a returned verdict is the input's, page or
    no page.  Its [last_updated] is the input's, unchanged (also when it
    is empty or [None]), when there is a page; without a page it is the
    empty string. *)
Theorem C6_url_and_date rt cr w r :
  fst (analyze rt cr w) = Return r ->
  url r = Crawler.url cr
  /\ (page_present cr -> last_updated r = Crawler.last_updated cr)
  /\ (page_absent cr -> last_updated r = Some []).
Proof.
  intros Hr. destruct (page_cases cr) as [Ha | Hp].
  - rewrite (analyze_absent rt cr w Ha) in Hr. injection Hr as <-.
    split; [reflexivity|]. split; [|reflexivity].
    intros Hp. destruct (page_present_not_absent cr Hp Ha).
  - destruct (analyze_returns rt cr w r Hp Hr)
      as (sc & nt & w' & _ & _ & Hv & _).
    rewrite Hv. split; [reflexivity|]. split; [reflexivity|].
    intros Ha. destruct (page_present_not_absent cr Hp Ha).
Qed.

Lemma C6_witness :
  fst (analyze (stub (Return reply_85)) example_gov w0) = Return verdict_85
  /\ url verdict_85 = Crawler.url example_gov
  /\ (page_present example_gov ->
      last_updated verdict_85 = Crawler.last_updated example_gov)
  /\ (page_absent example_gov -> last_updated verdict_85 = Some []).
Proof.
  assert (Hr : fst (analyze (stub (Return reply_85)) example_gov w0)
               = Return verdict_85) by (vm_compute; reflexivity).
  split; [exact Hr|].
  exact (C6_url_and_date (stub (Return reply_85)) example_gov w0
                         verdict_85 Hr).
Defined.

(** ** C5 *)




(** ** C8 *)

(** C8, counterexample.  The reply [{"score": "high", "notes": "x"}]
    parses as an object whose [score] is a string, not an integer; the
    resolved score is that string, not 100. *)
Lemma C8_string_score_is_kept :
  let rt := stub (Return reply_high) in
  let prompt := prompt_of rt example_gov in
  exists d,
    parses_as rt prompt d
    /\ dict_lookup d (u "score") = Some (VStr (u "high"))
    /\ fst (resolved rt example_gov prompt w0)
       = Return (VStr (u "high"), VStr (u "x"))
    /\ VStr (u "high") <> VInt 100.
Proof.
  intros rt prompt.
  exists [(u "score", VStr (u "high")); (u "notes", VStr (u "x"))].
  split; [exists reply_high; split; vm_compute; reflexivity|].
  split; [vm_compute; reflexivity|]. split; [vm_compute; reflexivity|].
  discriminate.
Qed.

(** C8, amended.  For a reply that parses as a JSON object, the [try]
    statement ends without an exception; the resolved score is 100 when
    the object has no [score] field and the field's value, as parsed, when
    it has one; the resolved notes is the placeholder
    [無法從 API 取得有效回覆] when the object has no [notes] field and the
    field's value when it has one. *)
Theorem C8_field_defaults rt cr prompt w d :
  parses_as rt prompt d ->
  exists sc nt,
    resolved rt cr prompt w = (Return (sc, nt), sent w prompt)
    /\ (dict_lookup d (u "score") = None -> sc = VInt 100)
    /\ (forall v, dict_lookup d (u "score") = Some v -> sc = v)
    /\ (dict_lookup d (u "notes") = None ->
        nt = VStr (u "無法從 API 取得有效回覆"))
    /\ (forall v, dict_lookup d (u "notes") = Some v -> nt = v).
Proof.
  intros Hp. do 2 eexists. split; [exact (resolved_parsed rt cr prompt w d Hp)|].
  unfold field. repeat split.
  - intros ->. reflexivity.
  - intros v ->. reflexivity.
  - intros ->. reflexivity.
  - intros v ->. reflexivity.
Qed.

Lemma C8_witness :
  let rt := stub (Return reply_notes_only) in
  let prompt := prompt_of rt example_gov in
  parses_as rt prompt [(u "notes", VStr (u "x"))]
  /\ exists sc nt,
       resolved rt example_gov prompt w0 = (Return (sc, nt), sent w0 prompt)
       /\ sc = VInt 100 /\ nt = VStr (u "x").
Proof.
  intros rt prompt.
  assert (Hp : parses_as rt prompt [(u "notes", VStr (u "x"))]).
  { exists reply_notes_only. split; vm_compute; reflexivity. }
  split; [exact Hp|].
  destruct (C8_field_defaults rt example_gov prompt w0 _ Hp)
    as (sc & nt & Hr & Hs0 & _ & _ & Hn1).
  exists sc, nt. split; [exact Hr|]. split.
  - apply Hs0. vm_compute. reflexivity.
  - apply Hn1. vm_compute. reflexivity.
Defined.

(** ** C9 *)

(** C9. For a page, the one prompt sent to the service is the fixed text
    with, in this order, today's date, the url, the [last_updated] value
    (the marker [未找到], "not found", when it is [None] or empty), the
    broken-link summary (or its marker), and the first 2000 characters of
    the page.  No more than 2000 characters of the page are embedded, a
    page of 2000 characters or fewer is embedded whole, and two pages
    with the same first 2000 characters give the same prompt. *)
Theorem C9_prompt_contents rt cr w c page :
  Crawler.html cr = Some (c :: page) ->
  let prompt := build_prompt (now_ymd rt) cr (c :: page) in
  requests (snd (analyze rt cr w)) = requests w ++ [prompt]
  /\ (exists shown_date shown_links,
        prompt
        = prompt_intro ++ now_ymd rt
            ++ prompt_before_url ++ Crawler.url cr
            ++ prompt_before_date ++ shown_date
            ++ prompt_before_links ++ shown_links
            ++ prompt_rubric ++ firstn 2000 (c :: page)
            ++ prompt_format
        /\ (forall x d, Crawler.last_updated cr = Some (x :: d) ->
                        shown_date = x :: d)
        /\ (Crawler.last_updated cr = None
            \/ Crawler.last_updated cr = Some [] ->
            shown_date = u "未找到"))
  /\ (List.length (firstn 2000 (c :: page)) <= 2000)%nat
  /\ ((List.length (c :: page) <= 2000)%nat ->
      firstn 2000 (c :: page) = c :: page)
  /\ (forall page',
        firstn 2000 page' = firstn 2000 (c :: page) ->
        build_prompt (now_ymd rt) cr page' = prompt).
Proof.
  intros H prompt.
  assert (Hp : page_present cr) by (exists c, page; exact H).
  split; [|split; [|split; [|split]]].
  - rewrite (analyze_requests rt cr w Hp). unfold prompt_of. rewrite H.
    reflexivity.
  - exists (or_else (Crawler.last_updated cr) date_not_found),
           (or_else (Some (broken_links_str cr)) links_none).
    split; [reflexivity|]. split.
    + intros x d ->. reflexivity.
    + intros [-> | ->]; reflexivity.
  - apply firstn_le_length.
  - intros Hlen. apply firstn_all2. exact Hlen.
  - intros page' Hpage. apply build_prompt_truncates. exact Hpage.
Qed.

Lemma C9_witness :
  Crawler.html example_gov = Some (u "<html>...</html>")
  /\ requests (snd (analyze (stub (Return reply_85)) example_gov w0))
     = [build_prompt (u "2026-01-01") example_gov (u "<html>...</html>")].
Proof.
  split; [reflexivity|].
  exact (proj1 (C9_prompt_contents (stub (Return reply_85)) example_gov w0
                  60%N (u "html>...</html>") eq_refl)).
Defined.

(** ** C10 *)


(** Why the amended statement asks more of the reply.  In
    [{"score": 10, "notes": "\ud83d`\ude00"}] a backtick separates the two
    escapes of a surrogate pair: the reply's notes are two lone surrogates
    around a backtick, and the verdict's notes are the one character the
    pair writes. *)
Lemma C10_split_pair_joins :
  exists d r,
    Json.loads 4300 900 reply_split_pair = Return (VDict d)
    /\ dict_lookup d (u "notes") = Some (VStr [55357; 96; 56832]%N)
    /\ fst (analyze (stub (Return reply_split_pair)) example_gov w0) = Return r
    /\ notes r = VStr [128512%N]
    /\ notes r <> VStr (remove_char 96%N [55357; 96; 56832]%N).
Proof.
  exists [(u "score", VInt 10); (u "notes", VStr [55357; 96; 56832]%N)].
  eexists.
  split; [vm_compute; reflexivity|]. split; [vm_compute; reflexivity|].
  split; [vm_compute; reflexivity|]. split; [vm_compute; reflexivity|].
  vm_compute. discriminate.
Qed.

(** In [{"score": 10, "notes": "a", "no`tes": "b"}] a member name holds a
    backtick: without it the name is [notes], and that member's value
    takes the place of the reply's notes. *)
Lemma C10_member_name_collides :
  exists d r,
    Json.loads 4300 900 reply_ticked_name = Return (VDict d)
    /\ dict_lookup d (u "notes") = Some (VStr (u "a"))
    /\ fst (analyze (stub (Return reply_ticked_name)) example_gov w0) = Return r
    /\ notes r = VStr (u "b").
Proof.
  exists [(u "score", VInt 10); (u "notes", VStr (u "a"));
          (u "no`tes", VStr (u "b"))].
  eexists.
  split; [vm_compute; reflexivity|]. split; [vm_compute; reflexivity|].
  split; vm_compute; reflexivity.
Qed.



End Claims.

(** * Further properties of [analyze] *)

Module Extras.
Import Py PyVal Analyzer Spec Props.

(** X1. Fail-safe.  For a page, when the call raises an instance of
    [Exception], or the cleaned reply is not JSON, or it is JSON but not
    an object, and the line that reports the failure can be printed,
    [analyze] returns a verdict with score 100, the Outdated status, the
    notes [API 回應解析失敗: ] followed by the exception's text, and the url,
    date and broken links of the input; one prompt was sent and one line
    printed. *)
Theorem X1_fail_safe rt cr w e :
  page_present cr ->
  fails_with rt (prompt_of rt cr) e ->
  is_exception e = true ->
  print_raises rt (failure_line cr e) = None ->
  analyze rt cr w
  = (Return (fail_safe cr e),
     printed (sent w (prompt_of rt cr)) (failure_line cr e))
  /\ score (fail_safe cr e) = VInt 100
  /\ status (fail_safe cr e) = u "❌ 過時"
  /\ notes (fail_safe cr e) = VStr (u "API 回應解析失敗: " ++ exn_str e)
  /\ url (fail_safe cr e) = Crawler.url cr
  /\ last_updated (fail_safe cr e) = Crawler.last_updated cr
  /\ broken_links (fail_safe cr e) = broken_links_str cr.
Proof.
  intros Hp Hf Hex Hpr. split; [|repeat split; reflexivity].
  rewrite (analyze_present rt cr w Hp).
  rewrite (resolved_failed rt cr _ w e Hf (conj Hex Hpr)). reflexivity.
Qed.

Lemma X1_witness :
  fails_with (stub (Raise (OtherException (u "deadline exceeded"))))
             (prompt_of (stub (Raise (OtherException (u "deadline exceeded"))))
                        example_gov)
             (OtherException (u "deadline exceeded"))
  /\ fst (analyze (stub (Raise (OtherException (u "deadline exceeded"))))
                  example_gov w0)
     = Return (fail_safe example_gov (OtherException (u "deadline exceeded"))).
Proof.
  assert (Hf : fails_with
                 (stub (Raise (OtherException (u "deadline exceeded"))))
                 (prompt_of
                    (stub (Raise (OtherException (u "deadline exceeded"))))
                    example_gov)
                 (OtherException (u "deadline exceeded")))
    by (left; reflexivity).
  split; [exact Hf|].
  rewrite (proj1 (X1_fail_safe _ example_gov w0 _ example_gov_present Hf
                               eq_refl ltac:(vm_compute; reflexivity))).
  reflexivity.
Defined.

(** X2. Calls and prints.  Without a page nothing is sent or printed.
    With a page exactly one prompt is sent, whatever the reply and
    whatever is raised.  Nothing is printed for a reply that parses as an
    object; for a failed call or parse, the line that names the url and
    the exception is printed when the [except] clause absorbs the
    failure, and nothing is printed otherwise (the exception is no
    instance of [Exception], or the line cannot be written). *)
Theorem X2_calls_and_prints rt cr w :
  (page_absent cr -> snd (analyze rt cr w) = w)
  /\ (page_present cr ->
      requests (snd (analyze rt cr w)) = requests w ++ [prompt_of rt cr]
      /\ (forall d, parses_as rt (prompt_of rt cr) d ->
                    stdout (snd (analyze rt cr w)) = stdout w)
      /\ (forall e, fails_with rt (prompt_of rt cr) e ->
                    (absorbed rt cr e ->
                     stdout (snd (analyze rt cr w))
                     = stdout w
                         ++ [u "Error processing API response for "
                               ++ Crawler.url cr ++ u ": " ++ exn_str e])
                    /\ (~ absorbed rt cr e ->
                        stdout (snd (analyze rt cr w)) = stdout w))).
Proof.
  split.
  - intros Ha. rewrite (analyze_absent rt cr w Ha). reflexivity.
  - intros Hp. split; [exact (analyze_requests rt cr w Hp)|]. split.
    + intros d Hd. rewrite (analyze_present rt cr w Hp).
      rewrite (resolved_parsed rt cr _ w d Hd).
      destruct (status_of rt _); reflexivity.
    + intros e He. rewrite (analyze_present rt cr w Hp). split.
      * intros Ha. rewrite (resolved_failed rt cr _ w e He Ha). reflexivity.
      * intros Hn. destruct (is_exception e) eqn:Hex.
        -- destruct (print_raises rt (failure_line cr e)) as [e'|] eqn:Hpr.
           ++ rewrite (resolved_print_raises rt cr _ w e e' He Hex Hpr).
              reflexivity.
           ++ destruct (Hn (conj Hex Hpr)).
        -- rewrite (resolved_uncaught rt cr _ w e He Hex). reflexivity.
Qed.

Lemma X2_witness :
  snd (analyze (stub (Return reply_85)) example_unfetched w0) = w0
  /\ requests (snd (analyze (stub (Return reply_85)) example_gov w0))
     = [prompt_of (stub (Return reply_85)) example_gov].
Proof.
  split.
  - exact (proj1 (X2_calls_and_prints (stub (Return reply_85))
                                      example_unfetched w0)
                 example_unfetched_absent).
  - exact (proj1 (proj2 (X2_calls_and_prints (stub (Return reply_85))
                                             example_gov w0)
                        example_gov_present)).
Defined.

(** X3. What escapes.  [analyze] raises exactly in three cases, all with a
    page: the reply parses as an object whose [score] member is [null], a
    string, an array or an object, and the [TypeError] of the comparison
    [score < 50] escapes; the call raises an exception that is no
    instance of [Exception], which the [except] clause does not take; or
    the call or the parse fails and the line that reports it cannot be
    printed, and the exception of [print] leaves the [except] clause. *)
Theorem X3_what_escapes rt cr w e :
  fst (analyze rt cr w) = Raise e
  <-> page_present cr
      /\ ((exists d v,
             parses_as rt (prompt_of rt cr) d
             /\ dict_lookup d (u "score") = Some v
             /\ non_numeric v
             /\ e = TypeError (u "'<' not supported between instances of '"
                                 ++ type_name v ++ u "' and 'int'"))
          \/ (fails_with rt (prompt_of rt cr) e /\ is_exception e = false)
          \/ (exists e0,
                fails_with rt (prompt_of rt cr) e0
                /\ is_exception e0 = true
                /\ print_raises rt (failure_line cr e0) = Some e)).
Proof.
  split.
  - intros Hr. destruct (page_cases cr) as [Ha | Hp].
    + rewrite (analyze_absent rt cr w Ha) in Hr. discriminate Hr.
    + split; [exact Hp|]. rewrite (analyze_present rt cr w Hp) in Hr.
      destruct (try_cases rt cr (prompt_of rt cr) w)
        as [(d & Hd & Hres) | [(e0 & _ & _ & Hres)
                              | [(e0 & Hf & Hex & Hres)
                                | (e0 & e' & Hf & Hex & Hpr & Hres)]]];
        rewrite Hres in Hr.
      * left.
        destruct (status_of rt (field d (u "score") (VInt 100)))
          as [st|e'] eqn:Hst; [discriminate Hr|].
        injection Hr as <-. apply status_of_raises in Hst as [Hnn ->].
        exists d. unfold field in *.
        destruct (dict_lookup d (u "score")) as [v|]; [|destruct Hnn].
        exists v. repeat split; auto.
      * rewrite status_of_int in Hr. discriminate Hr.
      * right; left. injection Hr as <-. split; assumption.
      * right; right. injection Hr as <-. exists e0. repeat split; assumption.
  - intros (Hp & [(d & v & Hd & Hv & Hnn & ->)
                 | [(Hf & Hex) | (e0 & Hf & Hex & Hpr)]]);
      rewrite (analyze_present rt cr w Hp).
    + rewrite (resolved_parsed rt cr _ w d Hd). unfold field at 1 2.
      rewrite Hv.
      assert (Hst : status_of rt v = Raise (comparison_error v))
        by (apply status_of_raises; split; [exact Hnn | reflexivity]).
      rewrite Hst. reflexivity.
    + rewrite (resolved_uncaught rt cr _ w e Hf Hex). reflexivity.
    + rewrite (resolved_print_raises rt cr _ w e0 e Hf Hex Hpr). reflexivity.
Qed.

Lemma X3_witness :
  fst (analyze (stub (Raise (KeyboardInterrupt []))) example_gov w0)
  = Raise (KeyboardInterrupt [])
  /\ fst (analyze (stub (Return (u "not json"))) example_lone_surrogate w0)
     = Raise (UnicodeEncodeError
                (u "'utf-8' codec can't encode character '\ud83d' in position 53: surrogates not allowed")).
Proof.
  split.
  - apply (proj2 (X3_what_escapes (stub (Raise (KeyboardInterrupt [])))
                                  example_gov w0 _)).
    split; [exact example_gov_present|]. right; left.
    split; [left; reflexivity | reflexivity].
  - apply (proj2 (X3_what_escapes (stub (Return (u "not json")))
                                  example_lone_surrogate w0 _)).
    split; [do 2 eexists; vm_compute; reflexivity|]. right; right.
    exists (JSONDecodeError (u "Expecting value") (u "not json") 0).
    split; [|split; [reflexivity | vm_compute; reflexivity]].
    right. exists (u "not json"). split; [reflexivity|]. left.
    vm_compute. reflexivity.
Defined.

(** X4. A reply that is JSON but not an object (an array, a string, a
    number, [true], [null]) takes the fail-safe path: [data.get] raises
    [AttributeError], and, when the line that reports it can be printed,
    the verdict's notes name the type that has no [get]. *)
Theorem X4_not_an_object rt cr w text data :
  page_present cr ->
  generate_content rt (prompt_of rt cr) = Return text ->
  Json.loads (int_max_str_digits rt) (recursion_depth rt)
             (clean_response text) = Return data ->
  (forall d, data <> VDict d) ->
  print_raises rt
    (failure_line cr
       (AttributeError ([39%N] ++ type_name data
                          ++ u "' object has no attribute 'get'")))
  = None ->
  exists r,
    fst (analyze rt cr w) = Return r
    /\ score r = VInt 100 /\ status r = status_outdated
    /\ notes r = VStr (u "API 回應解析失敗: " ++ [39%N] ++ type_name data
                         ++ u "' object has no attribute 'get'").
Proof.
  intros Hp Hc Hl Hnd Hpr.
  set (e := AttributeError ([39%N] ++ type_name data
                              ++ u "' object has no attribute 'get'")) in *.
  assert (Hf : fails_with rt (prompt_of rt cr) e).
  { right. exists text. split; [exact Hc|]. right. exists data.
    split; [exact Hl|]. destruct data; try reflexivity.
    destruct (Hnd items eq_refl). }
  exists (fail_safe cr e).
  rewrite (analyze_present rt cr w Hp),
    (resolved_failed rt cr _ w e Hf (conj eq_refl Hpr)).
  split; [reflexivity|]. split; [reflexivity|]. split; [reflexivity|].
  cbv beta iota delta [fail_safe verdict notes notes_failure_prefix exn_str e].
  reflexivity.
Qed.

Lemma X4_witness :
  exists r,
    fst (analyze (stub (Return reply_array)) example_gov w0) = Return r
    /\ score r = VInt 100 /\ status r = status_outdated
    /\ notes r = VStr (u "API 回應解析失敗: " ++ [39%N]
                         ++ type_name (VList [VInt 1])
                         ++ u "' object has no attribute 'get'").
Proof.
  apply (X4_not_an_object (stub (Return reply_array)) example_gov w0
                          reply_array (VList [VInt 1])
                          example_gov_present).
  - reflexivity.
  - vm_compute. reflexivity.
  - intros d. discriminate.
  - vm_compute. reflexivity.
Defined.

(** X7. A [true] or [false] score is compared as 1 or 0: the verdict
    keeps the boolean as its score and its status is Normal. *)
Theorem X7_boolean_score rt cr w r b :
  page_present cr ->
  fst (analyze rt cr w) = Return r ->
  score r = VBool b ->
  status r = status_normal.
Proof.
  intros Hp Hr Hb.
  destruct (analyze_returns rt cr w r Hp Hr)
    as (sc & nt & w' & _ & Hst & Hv & _).
  assert (Hsc : sc = VBool b) by (rewrite Hv in Hb; exact Hb).
  rewrite Hsc in Hst. destruct b; injection Hst as <-; reflexivity.
Qed.

Lemma X7_witness :
  let rt := stub (Return reply_true_score) in
  let r := verdict example_gov status_normal (VBool true)
                   (VStr notes_no_reply) in
  fst (analyze rt example_gov w0) = Return r /\ status r = status_normal.
Proof.
  intros rt r.
  assert (Hr : fst (analyze rt example_gov w0) = Return r)
    by (vm_compute; reflexivity).
  split; [exact Hr|].
  exact (X7_boolean_score rt example_gov w0 r true example_gov_present Hr
                          eq_refl).
Defined.

(** X5. A reply that is a text of the JSON grammar for an object (see
    [JsonText]), within the interpreter's limits on digits and nesting,
    wrapped in a Markdown fence with the tag [json] or without a tag: it
    is cleaned to the object's text without its backtick characters,
    between the whitespace that stood inside the fence; the cleaned text
    parses, and the [try] statement resolves to the fields of the object
    read from the cleaned text, with the defaults for absent members. *)
Theorem X5_fenced_reply rt cr w ws members tag w1 w2 :
  let obj := JsonText.TObject ws members in
  let prompt := prompt_of rt cr in
  let d := fold_left JsonText.add_member
                     (map JsonText.strip_member members) [] in
  generate_content rt prompt
  = Return (fenced tag w1 (JsonText.render obj) w2) ->
  tag = [] \/ tag = u "json" ->
  JsonText.all_ws w1 = true -> JsonText.all_ws w2 = true ->
  JsonText.text_ok (int_max_str_digits rt) obj = true ->
  (JsonText.depth obj <= recursion_depth rt)%nat ->
  clean_response (fenced tag w1 (JsonText.render obj) w2)
  = w1 ++ JsonText.render (JsonText.strip_ticks obj) ++ w2
  /\ parses_as rt prompt d
  /\ resolved rt cr prompt w
     = (Return (field d (u "score") (VInt 100),
                field d (u "notes") (VStr notes_no_reply)), sent w prompt).
Proof.
  intros obj prompt d Hc Htag Hw1 Hw2 Hok Hd.
  assert (Hclean : clean_response (fenced tag w1 (JsonText.render obj) w2)
                   = w1 ++ JsonText.render (JsonText.strip_ticks obj) ++ w2)
    by exact (clean_response_fenced _ ws members tag w1 w2 Htag Hw1 Hw2 Hok).
  assert (Hp : parses_as rt prompt d).
  { eexists. split; [exact Hc|]. rewrite Hclean.
    apply JsonTextFacts.loads_render; auto.
    - apply JsonTextFacts.strip_ticks_ok. exact Hok.
    - rewrite JsonTextFacts.strip_ticks_depth. exact Hd. }
  split; [exact Hclean|]. split; [exact Hp|].
  exact (resolved_parsed rt cr prompt w d Hp).
Qed.

Lemma X5_witness :
  let rt := stub (Return reply_fenced) in
  reply_fenced
  = fenced (u "json") [10%N]
           (JsonText.render (JsonText.TObject [] JsonText.stale_members))
           [10%N]
  /\ parses_as rt (prompt_of rt example_gov)
               (fold_left JsonText.add_member
                          (map JsonText.strip_member JsonText.stale_members)
                          [])
  /\ fst (analyze rt example_gov w0) = Return verdict_85.
Proof.
  intros rt. split; [vm_compute; reflexivity|].
  split; [|vm_compute; reflexivity].
  exact (proj1 (proj2 (X5_fenced_reply rt example_gov w0 []
                         JsonText.stale_members (u "json") [10%N] [10%N]
                         ltac:(vm_compute; reflexivity)
                         (or_intror eq_refl) eq_refl eq_refl
                         ltac:(vm_compute; reflexivity)
                         ltac:(vm_compute; lia)))).
Defined.

(** X6. For a reply that is a text of the JSON grammar for an object (see
    [JsonText]), within the interpreter's limits, whose member names are
    written without a backtick character: the score and notes of a
    returned verdict are the values of the last members named [score] and
    [notes], each read from its text with the backtick characters deleted
    (a backtick written as the escape [\u0060] is no backtick character
    and stays), and the defaults when there is no such member.  Of two
    members named [score], the second counts. *)
Theorem X6_last_member_counts rt cr w ws members w1 w2 r :
  let obj := JsonText.TObject ws members in
  page_present cr ->
  generate_content rt (prompt_of rt cr)
  = Return (w1 ++ JsonText.render obj ++ w2) ->
  JsonText.all_ws w1 = true -> JsonText.all_ws w2 = true ->
  JsonText.text_ok (int_max_str_digits rt) obj = true ->
  (JsonText.depth obj <= recursion_depth rt)%nat ->
  JsonText.names_without_ticks members = true ->
  fst (analyze rt cr w) = Return r ->
  score r = match JsonText.find_member (u "score") members with
            | Some v => JsonText.value_of (JsonText.strip_ticks v)
            | None => VInt 100
            end
  /\ notes r = match JsonText.find_member (u "notes") members with
               | Some v => JsonText.value_of (JsonText.strip_ticks v)
               | None => VStr (u "無法從 API 取得有效回覆")
               end.
Proof.
  intros obj Hp Hc Hw1 Hw2 Hok Hd Hn Hr.
  pose proof (object_reply_parses rt _ ws members w1 w2 Hc Hw1 Hw2 Hok Hd)
    as Hparses.
  rewrite (analyze_present rt cr w Hp) in Hr.
  rewrite (resolved_parsed rt cr _ w _ Hparses) in Hr.
  destruct (status_of rt _) as [st|e]; [|discriminate Hr].
  injection Hr as <-. cbn [verdict score notes].
  rewrite !(object_field members _ _ Hn). split; reflexivity.
Qed.

Lemma X6_witness :
  let rt := stub (Return (JsonText.render
                            (JsonText.TObject [] JsonText.twice_members))) in
  let r := verdict example_gov status_outdated (VInt 90)
                   (VStr notes_no_reply) in
  fst (analyze rt example_gov w0) = Return r
  /\ score r = match JsonText.find_member (u "score") JsonText.twice_members
               with
               | Some v => JsonText.value_of (JsonText.strip_ticks v)
               | None => VInt 100
               end.
Proof.
  intros rt r.
  assert (Hr : fst (analyze rt example_gov w0) = Return r)
    by (vm_compute; reflexivity).
  split; [exact Hr|].
  exact (proj1 (X6_last_member_counts rt example_gov w0 []
                  JsonText.twice_members [] [] r
                  example_gov_present
                  ltac:(vm_compute; reflexivity)
                  eq_refl eq_refl
                  ltac:(vm_compute; reflexivity)
                  ltac:(vm_compute; lia)
                  ltac:(vm_compute; reflexivity)
                  Hr)).
Defined.

(** X8. The prompt's length is that of its fixed text (1596 characters)
    plus the lengths of the date, the url, the shown last-update value
    and the shown link summary, plus the page's length up to 2000: it
    does not grow with a page longer than 2000 characters. *)
Theorem X8_prompt_length today cr page :
  List.length (build_prompt today cr page)
  = (1596 + List.length today + List.length (Crawler.url cr)
     + List.length (or_else (Crawler.last_updated cr) date_not_found)
     + List.length (or_else (Some (broken_links_str cr)) links_none)
     + Nat.min 2000 (List.length page))%nat.
Proof.
  unfold build_prompt. rewrite !length_app, length_firstn.
  assert (H1 : List.length prompt_intro = 104%nat) by (vm_compute; reflexivity).
  assert (H2 : List.length prompt_before_url = 19%nat)
    by (vm_compute; reflexivity).
  assert (H3 : List.length prompt_before_date = 19%nat)
    by (vm_compute; reflexivity).
  assert (H4 : List.length prompt_before_links = 21%nat)
    by (vm_compute; reflexivity).
  assert (H5 : List.length prompt_rubric = 1221%nat)
    by (vm_compute; reflexivity).
  assert (H6 : List.length prompt_format = 212%nat)
    by (vm_compute; reflexivity).
  rewrite H1, H2, H3, H4, H5, H6. lia.
Qed.

(** X9. A reply object without a [score] member is taken as fully
    outdated: the verdict has score 100 and the Outdated status, with the
    reply's notes. *)
Theorem X9_missing_score rt cr w d :
  page_present cr ->
  parses_as rt (prompt_of rt cr) d ->
  dict_lookup d (u "score") = None ->
  analyze rt cr w
  = (Return (verdict cr status_outdated (VInt 100)
                     (field d (u "notes") (VStr notes_no_reply))),
     sent w (prompt_of rt cr)).
Proof.
  intros Hp Hd Hs. rewrite (analyze_present rt cr w Hp).
  rewrite (resolved_parsed rt cr _ w d Hd). unfold field at 1 2.
  rewrite Hs. reflexivity.
Qed.

Lemma X9_witness :
  let rt := stub (Return reply_notes_only) in
  fst (analyze rt example_gov w0)
  = Return (verdict example_gov status_outdated (VInt 100)
                    (field [(u "notes", VStr (u "x"))] (u "notes")
                           (VStr notes_no_reply))).
Proof.
  intros rt.
  rewrite (X9_missing_score rt example_gov w0 [(u "notes", VStr (u "x"))]
             example_gov_present
             ltac:(exists reply_notes_only; split; vm_compute; reflexivity)
             ltac:(vm_compute; reflexivity)).
  reflexivity.
Defined.

(** X10. Cleaning a reply leaves no backtick in it and never makes it
    longer. *)
Theorem X10_cleaning text :
  ~ In 96%N (clean_response text)
  /\ (List.length (clean_response text) <= List.length text)%nat.
Proof.
  split; [apply clean_response_tickless | apply clean_response_length].
Qed.

(** X12. Construction.  [__init__] raises [ValueError] exactly when
    [GEMINI_API_KEY] is unset or empty, and then configures nothing;
    otherwise it configures the client library with the key and asks for
    the model [gemini-2.5-flash-lite-preview-06-17]. *)
Theorem X12_construction getenv lib :
  (forall e lib',
      init getenv lib = (Raise e, lib')
      <-> (getenv (u "GEMINI_API_KEY") = None
           \/ getenv (u "GEMINI_API_KEY") = Some [])
          /\ e = ValueError
                   (u "GEMINI_API_KEY not found in environment variables.")
          /\ lib' = lib)
  /\ (forall c key,
        getenv (u "GEMINI_API_KEY") = Some (c :: key) ->
        init getenv lib
        = (Return {| model_name := u "gemini-2.5-flash-lite-preview-06-17" |},
           {| configured_key := Some (c :: key) |})).
Proof.
  unfold init. split.
  - intros e lib'.
    destruct (getenv (u "GEMINI_API_KEY")) as [[|c key]|]; split.
    + intros [= <- <-]. auto.
    + intros (_ & -> & ->). reflexivity.
    + discriminate.
    + intros ([H | H] & _); discriminate H.
    + intros [= <- <-]. auto.
    + intros (_ & -> & ->). reflexivity.
  - intros c key ->. reflexivity.
Qed.

Lemma X12_witness :
  fst (init env_without_key {| configured_key := None |})
  = Raise (ValueError
             (u "GEMINI_API_KEY not found in environment variables."))
  /\ init env_with_key {| configured_key := None |}
     = (Return {| model_name := u "gemini-2.5-flash-lite-preview-06-17" |},
        {| configured_key := Some (u "k-123") |}).
Proof.
  split.
  - pose proof (proj2 (proj1 (X12_construction env_without_key
                                 {| configured_key := None |}) _ _)
                      (conj (or_introl eq_refl) (conj eq_refl eq_refl))) as H.
    rewrite H. reflexivity.
  - exact (proj2 (X12_construction env_with_key {| configured_key := None |})
                 107%N (u "-123") ltac:(vm_compute; reflexivity)).
Defined.

(** X13. What an evaluation reads.  Two crawl results with the same url,
    the same [last_updated], pages that agree on their first 2000
    characters and the same links with a status other than 200 (in the
    same order) get the same evaluation: the rest of a long page and the
    links with status 200 have no influence. *)
Theorem X13_what_is_read rt cr cr' w :
  Crawler.url cr = Crawler.url cr' ->
  Crawler.last_updated cr = Crawler.last_updated cr' ->
  option_map (firstn 2000) (Crawler.html cr)
  = option_map (firstn 2000) (Crawler.html cr') ->
  filter (fun '(_, code) => negb (code =? 200)) (Crawler.link_status cr)
  = filter (fun '(_, code) => negb (code =? 200)) (Crawler.link_status cr') ->
  analyze rt cr w = analyze rt cr' w.
Proof.
  intros Hurl Hdate Hpage Hlinks.
  assert (Hbl : broken_links_str cr = broken_links_str cr').
  { unfold broken_links_str, broken_links_list. rewrite Hlinks. reflexivity. }
  assert (Herr : forall e w1, on_error rt cr e w1 = on_error rt cr' e w1).
  { intros e w1. unfold on_error, failure_line. rewrite Hurl. reflexivity. }
  unfold analyze.
  destruct (Crawler.html cr) as [[|c p]|];
    destruct (Crawler.html cr') as [[|c' p']|];
    cbn [option_map] in Hpage;
    try (exfalso; change 2000%nat with (S 1999) in Hpage;
         rewrite ?firstn_cons, ?firstn_nil in Hpage; discriminate Hpage).
  - rewrite Hurl. reflexivity.
  - pose proof (f_equal (fun o => match o with Some x => x | None => [] end)
                        Hpage) as Hp.
    cbv beta iota in Hp.
    assert (Hprompt : build_prompt (now_ymd rt) cr (c :: p)
                      = build_prompt (now_ymd rt) cr' (c' :: p')).
    { unfold build_prompt. rewrite Hurl, Hdate, Hbl, Hp. reflexivity. }
    rewrite Hprompt. unfold bind, try_except.
    destruct (resolve rt _ w) as [[sn|e] w1].
    + rewrite Hurl, Hdate, Hbl. reflexivity.
    + destruct (is_exception e); [|reflexivity].
      rewrite Herr. destruct (on_error rt cr' e w1) as [[[sc nt]|e'] w2];
        [|reflexivity].
      rewrite Hurl, Hdate, Hbl. reflexivity.
  - rewrite Hurl. reflexivity.
Qed.

Lemma X13_witness :
  let cr' := {| Crawler.url := u "https://example.gov";
                Crawler.html := Some (u "<html>...</html>");
                Crawler.last_updated := Some (u "2019-01-01");
                Crawler.link_status :=
                  [(u "https://ok", 200); (u "https://x", 500)] |} in
  analyze (stub (Return reply_85)) example_gov w0
  = analyze (stub (Return reply_85)) cr' w0.
Proof.
  intros cr'.
  apply X13_what_is_read; vm_compute; reflexivity.
Defined.

End Extras.
